(** * Distance-vector routing: the Entity of entity.py

    A shallow embedding of the class [Entity] (src/entity.py) and the
    properties of its methods.  Python integers are unbounded, so
    costs and identities are [Z].  Python lists are mutable objects: the
    cost vector of an entity is one list that [update] assigns into in
    place and that [initialize_costs] replaces by a new one, so the
    vectors live in a store and are named by their address. *)

From Stdlib Require Import ZArith Lia.
From stdpp Require Import base tactics option list.

Local Open Scope Z_scope.

(** ** Python values and failures *)

Inductive PyErr : Type :=
  | IndexError      (* list index out of range *)
  | AttributeError. (* attribute read before any assignment *)

Inductive Res (A : Type) : Type :=
  | Ok (a : A)
  | Raise (e : PyErr).
Arguments Ok {A} a.
Arguments Raise {A} e.

(** [l[i]] for a Python list of length [len]: indices [0 .. len-1] count
    from the front, [-len .. -1] from the back, anything else raises. *)
Definition py_index (len : nat) (i : Z) : option nat :=
  if decide (0 <= i < Z.of_nat len) then Some (Z.to_nat i)
  else if decide (- Z.of_nat len <= i < 0) then Some (Z.to_nat (Z.of_nat len + i))
  else None.

Definition getitem {A} (l : list A) (i : Z) : Res A :=
  match py_index (length l) i with
  | Some n => match l !! n with Some x => Ok x | None => Raise IndexError end
  | None => Raise IndexError
  end.

Definition setitem {A} (l : list A) (i : Z) (x : A) : Res (list A) :=
  match py_index (length l) i with
  | Some n => Ok (<[n := x]> l)
  | None => Raise IndexError
  end.

(** [range(n)] *)
Definition range (n : Z) : list Z := seqZ 0 n.

(** ** The store, packets and the entity object *)

Definition loc := nat.

(** Modelled from the spec: the class [Packet] of packet.py, which
    entity.py imports, is not among the sources.  The spec (section 3)
    gives the envelope as [{sender, vector}]: an immutable value that
    carries an identity and a cost vector, with copy semantics for the
    vector and no reference back to the entity that built it.
    [get_source()] and [get_costs()] read the two components. *)
Record Packet : Type := mkPacket {
  pkt_source : Z;
  pkt_costs : list Z
}.

(** Modelled from the spec: [get_source()] reads the identity the
    envelope carries. *)
Definition get_source (p : Packet) : Z := pkt_source p.

(** Modelled from the spec: [get_costs()] reads the vector the envelope
    carries. *)
Definition get_costs (p : Packet) : list Z := pkt_costs p.

(** The attributes of an [Entity].  [__init__] assigns [index] and
    [number_of_entities]; the other three do not exist before
    [initialize_costs] assigns them.  [vector] is a list object that
    [update] assigns into in place and that is handed to the constructor
    of [Packet], and so is an address; [neighbors] and [next_hop] never leave the
    entity ([forward_next_hop] returns an element, [get_all_costs] a
    fresh list of tuples) and are kept by value. *)
Record Entity : Type := mkEntity {
  index : Z;
  number_of_entities : Z;
  neighbors : option (list Z);
  vector : option loc;
  next_hop : option (list Z)
}.

Definition Entity_init (entity_index number_entities : Z) : Entity :=
  mkEntity entity_index number_entities None None None.

Definition set_neighbors (ns : list Z) (e : Entity) : Entity :=
  mkEntity (index e) (number_of_entities e) (Some ns) (vector e) (next_hop e).
Definition set_vector (v : loc) (e : Entity) : Entity :=
  mkEntity (index e) (number_of_entities e) (neighbors e) (Some v) (next_hop e).
Definition set_next_hop (nh : list Z) (e : Entity) : Entity :=
  mkEntity (index e) (number_of_entities e) (neighbors e) (vector e) (Some nh).

Record World : Type := mkWorld {
  heap : list (list Z);
  self : Entity
}.

(** ** A state and exception monad for method bodies

    A raised exception leaves the mutations made so far in place. *)

Definition M (A : Type) : Type := World -> Res A * World.

Definition ret {A} (a : A) : M A := fun w => (Ok a, w).
Definition raise {A} (e : PyErr) : M A := fun w => (Raise e, w).
Definition bind {A B} (c : M A) (k : A -> M B) : M B :=
  fun w => match c w with
           | (Ok a, w') => k a w'
           | (Raise e, w') => (Raise e, w')
           end.

Notation "x <- c ;; k" := (bind c (fun x => k))
  (at level 100, c at next level, right associativity).
Notation "c ;;; k" := (bind c (fun _ => k))
  (at level 100, right associativity).

Definition lift {A} (r : Res A) : M A := fun w => (r, w).

Definition get_self : M Entity := fun w => (Ok (self w), w).
Definition set_self (f : Entity -> Entity) : M unit :=
  fun w => (Ok tt, mkWorld (heap w) (f (self w))).

(** [self.a] for an attribute that may not be assigned yet *)
Definition attr {A} (a : Entity -> option A) : M A :=
  fun w => match a (self w) with
           | Some x => (Ok x, w)
           | None => (Raise AttributeError, w)
           end.

Definition alloc (l : list Z) : M loc :=
  fun w => (Ok (length (heap w)), mkWorld (heap w ++ [l]) (self w)).
Definition load (p : loc) : M (list Z) :=
  fun w => (Ok (heap w !!! p), w).
Definition store (p : loc) (l : list Z) : M unit :=
  fun w => (Ok tt, mkWorld (<[p := l]> (heap w)) (self w)).

(** [p[i]] and [p[i] = x] on a list object in the store *)
Definition list_getitem (p : loc) (i : Z) : M Z :=
  l <- load p ;; lift (getitem l i).
Definition list_setitem (p : loc) (i x : Z) : M unit :=
  l <- load p ;; l' <- lift (setitem l i x) ;; store p l'.

(** Modelled from the spec: the constructor of [Packet], called as
    [Packet(identity, costs)] with a list object [costs].  By the copy
    semantics of the spec the envelope holds the contents the list has at
    this moment, not the list object. *)
Definition Packet_new (identity : Z) (costs : loc) : M Packet :=
  l <- load costs ;; ret (mkPacket identity l).

(** [for x in xs: ...] with the local variables the body assigns as [s],
    and the list comprehension [[f(x) for x in xs]] *)
Fixpoint foldM {S A} (body : S -> A -> M S) (s : S) (xs : list A) : M S :=
  match xs with
  | [] => ret s
  | x :: xs' => s' <- body s x ;; foldM body s' xs'
  end.

Fixpoint mapM {A B} (f : A -> M B) (xs : list A) : M (list B) :=
  match xs with
  | [] => ret []
  | x :: xs' => y <- f x ;; ys <- mapM f xs' ;; ret (y :: ys)
  end.

(** ** The methods of Entity *)

Definition INFINITY : Z := 999.

(** entity.py, lines 31-62 *)
Definition initialize_costs (neighbor_costs : list (Z * Z)) : M (list Packet) :=
  set_self (set_neighbors (fst <$> neighbor_costs)) ;;;
  e <- get_self ;;
  vec <- alloc (replicate (Z.to_nat (number_of_entities e)) INFINITY) ;;
  list_setitem vec (index e) 0 ;;;
  foldM (fun (_ : unit) link => list_setitem vec (fst link) (snd link))
        tt neighbor_costs ;;;
  set_self (set_vector vec) ;;;
  nh <- lift (setitem (replicate (Z.to_nat (number_of_entities e)) 0)
                      (index e) (index e)) ;;
  ns <- attr neighbors ;;
  r <- foldM (fun '(nh, packets) neighbor =>
                nh' <- lift (setitem nh neighbor neighbor) ;;
                packet <- Packet_new neighbor vec ;;
                ret (nh', packets ++ [packet]))
             (nh, []) ns ;;
  set_self (set_next_hop (fst r)) ;;;
  ret (snd r).

(** line 76: [x + self.vector[packet.get_source()]] for one [x] *)
Definition candidate (packet : Packet) (x : Z) : M Z :=
  v <- attr vector ;;
  c <- list_getitem v (get_source packet) ;;
  ret (x + c).

(** lines 78-81, the body of the loop over [i] *)
Definition relax_entry (packet : Packet) (new_info : list Z)
    (updated : bool) (i : Z) : M bool :=
  a <- lift (getitem new_info i) ;;
  v <- attr vector ;;
  b <- list_getitem v i ;;
  if a <? b then
    a' <- lift (getitem new_info i) ;;
    v' <- attr vector ;;
    list_setitem v' i a' ;;;
    nh <- attr next_hop ;;
    nh' <- lift (setitem nh i (get_source packet)) ;;
    set_self (set_next_hop nh') ;;;
    ret true
  else ret updated.

(** lines 84-85 *)
Definition broadcast : M (list Packet) :=
  ns <- attr neighbors ;;
  foldM (fun packets neighbor =>
           v <- attr vector ;;
           packet <- Packet_new neighbor v ;;
           ret (packets ++ [packet]))
        [] ns.

(** entity.py, lines 64-87 *)
Definition update (packet : Packet) : M (list Packet) :=
  new_info <- mapM (candidate packet) (get_costs packet) ;;
  e <- get_self ;;
  updated <- foldM (relax_entry packet new_info) false
                   (range (number_of_entities e)) ;;
  if updated then broadcast else ret [].

(** entity.py, lines 90-105 *)
Definition get_all_costs : M (list (Z * Z)) :=
  e <- get_self ;;
  foldM (fun hop_cost i =>
           nh <- attr next_hop ;;
           h <- lift (getitem nh i) ;;
           v <- attr vector ;;
           c <- list_getitem v i ;;
           lift (setitem hop_cost i (h, c)))
        (replicate (Z.to_nat (number_of_entities e)) (0, 0))
        (range (number_of_entities e)).

(** entity.py, lines 107-117 *)
Definition forward_next_hop (destination : Z) : M Z :=
  nh <- attr next_hop ;;
  lift (getitem nh destination).

(** ** Running the methods *)

(** The state an entity is in after the simulator has delivered the
    packets [ps] one after the other; what each call returns or raises is
    dropped here. *)
Fixpoint deliver (ps : list Packet) (w : World) : World :=
  match ps with
  | [] => w
  | p :: ps' => deliver ps' (snd (update p w))
  end.

(** The cost vector and next-hop table as the entity sees them. *)
Definition vector_of (w : World) : option (list Z) :=
  match vector (self w) with
  | Some lv => heap w !! lv
  | None => None
  end.

(** ** The loops as functions on lists

    What the two loops of [update] and the two of [initialize_costs]
    compute when no index is out of range; the proofs below connect them
    to the method bodies. *)

(** One round of the loop of [update] (lines 77-81) at index [i], on
    the current vector, next-hop table and flag. *)
Definition relax1 (s : Z) (cand : list Z)
    (st : list Z * list Z * bool) (i : nat) : list Z * list Z * bool :=
  let '(v, nh, u) := st in
  match cand !! i, v !! i with
  | Some a, Some b =>
      if a <? b then (<[i := a]> v, <[i := s]> nh, true) else st
  | _, _ => st
  end.

(** Does the candidate for destination [d] beat the recorded cost? *)
Definition improves (cand v : list Z) (d : nat) : bool :=
  match cand !! d, v !! d with
  | Some a, Some b => a <? b
  | _, _ => false
  end.

(** Lines 44-48 and 53-57 of [initialize_costs]. *)
Definition init_vector (idx n : Z) (neighbor_costs : list (Z * Z)) : list Z :=
  foldl (fun v link => <[Z.to_nat (fst link) := snd link]> v)
        (<[Z.to_nat idx := 0]> (replicate (Z.to_nat n) INFINITY))
        neighbor_costs.

Definition init_next_hop (idx n : Z) (ns : list Z) : list Z :=
  foldl (fun nh neighbor => <[Z.to_nat neighbor := neighbor]> nh)
        (<[Z.to_nat idx := idx]> (replicate (Z.to_nat n) 0))
        ns.

(** ** Relating two states of the same entity *)

(** [lowers w w']: from [w] to [w'] the entity kept its identity, its
    neighbours and its vector object; no cost in the store went up, and
    only the entity's own vector may differ at all. *)
Definition lowers (w w' : World) : Prop :=
  index (self w') = index (self w) /\
  number_of_entities (self w') = number_of_entities (self w) /\
  neighbors (self w') = neighbors (self w) /\
  vector (self w') = vector (self w) /\
  length (heap w') = length (heap w) /\
  forall l, Forall2 Z.le (heap w' !!! l) (heap w !!! l) /\
            (vector (self w) <> Some l -> heap w' !!! l = heap w !!! l).

(** The entity has a vector, every cost in it is non-negative, and its
    cost to itself is 0. *)
Definition self_cost_ok (w : World) : Prop :=
  exists lv v,
    vector (self w) = Some lv /\ heap w !! lv = Some v /\
    Forall (Z.le 0) v /\ v !! Z.to_nat (index (self w)) = Some 0.

(** The entity has a vector and [P] holds of every cost in it. *)
Definition vector_all (P : Z -> Prop) (w : World) : Prop :=
  exists lv v,
    vector (self w) = Some lv /\ heap w !! lv = Some v /\ Forall P v.

(** The entity has a next-hop table of [len] entries, all satisfying [P]. *)
Definition next_hop_all (P : Z -> Prop) (len : nat) (w : World) : Prop :=
  exists nh,
    next_hop (self w) = Some nh /\ length nh = len /\ Forall P nh.

(** An initialized entity: [initialize_costs] has run, the vector has
    address [lv] and contents [v], the next-hop table is [nh], the
    neighbours are [ns]; both tables have one entry per entity and every
    neighbour is an identity of the network. *)
Definition Active (w : World) (lv : loc) (v nh ns : list Z) : Prop :=
  vector (self w) = Some lv /\ heap w !! lv = Some v /\
  next_hop (self w) = Some nh /\ neighbors (self w) = Some ns /\
  length v = Z.to_nat (number_of_entities (self w)) /\
  length nh = Z.to_nat (number_of_entities (self w)) /\
  Forall (fun nb => 0 <= nb < number_of_entities (self w)) ns.

(** ** A small network to run the methods on

    Three entities in a line, 0 - 1 - 2, each link of cost 1, seen from
    entity 0.  Cell 0 of the store is the vector of entity 1 once it
    knows both its links, and [from_node1] the envelope that carries a
    copy of it to entity 0. *)
Definition node0 : World := mkWorld [[1; 0; 1]] (Entity_init 0 3).
Definition node0_active : World := snd (initialize_costs [(1, 1)] node0).
Definition from_node1 : Packet := mkPacket 1 [1; 0; 1].

(** The same network earlier on: the vector of entity 1 is still its
    initial one, in which entity 2 is out of reach. *)
Definition early0 : World := mkWorld [[1; 0; 999]] (Entity_init 0 3).
Definition early0_active : World := snd (initialize_costs [(1, 1)] early0).

(** * Proofs *)

(** ** Python indexing *)

Lemma py_index_nat (len i : nat) : (i < len)%nat -> py_index len (Z.of_nat i) = Some i.
Proof.
  intros Hi. unfold py_index.
  rewrite decide_True by lia. by rewrite Nat2Z.id.
Qed.

Lemma getitem_nat {A} (l : list A) (i : nat) x :
  l !! i = Some x -> getitem l (Z.of_nat i) = Ok x.
Proof.
  intros H. unfold getitem.
  rewrite py_index_nat by (by eapply lookup_lt_Some). by rewrite H.
Qed.

Lemma getitem_Ok {A} (l : list A) i x :
  getitem l i = Ok x -> exists n, py_index (length l) i = Some n /\ l !! n = Some x.
Proof.
  unfold getitem. repeat case_match; intros; simplify_eq; eauto.
Qed.

Lemma setitem_nat {A} (l : list A) (i : nat) x :
  (i < length l)%nat -> setitem l (Z.of_nat i) x = Ok (<[i := x]> l).
Proof.
  intros H. unfold setitem. by rewrite py_index_nat.
Qed.

Lemma setitem_Ok {A} (l l' : list A) i x :
  setitem l i x = Ok l' -> exists n, py_index (length l) i = Some n /\ l' = <[n := x]> l.
Proof.
  unfold setitem. repeat case_match; intros; simplify_eq; eauto.
Qed.

Lemma range_seq n : range n = Z.of_nat <$> seq 0 (Z.to_nat n).
Proof.
  unfold range, seqZ. apply list_fmap_ext. intros; lia.
Qed.

(** ** The monad *)

Lemma bind_Ok {A B} (c : M A) (k : A -> M B) w a w' :
  c w = (Ok a, w') -> bind c k w = k a w'.
Proof. intros H. unfold bind. by rewrite H. Qed.

Lemma bind_inv {A B} (c : M A) (k : A -> M B) w r w2 :
  bind c k w = (r, w2) ->
  (exists a w1, c w = (Ok a, w1) /\ k a w1 = (r, w2)) \/
  (exists e, c w = (Raise e, w2) /\ r = Raise e).
Proof.
  unfold bind. destruct (c w) as [[a|e] w1]; intros H.
  - left. eauto.
  - right. simplify_eq. eauto.
Qed.

(** What each primitive does when it succeeds, as equations to execute
    a method body symbolically with [bind_Ok]. *)

Lemma attr_Some {A} (a : Entity -> option A) w x :
  a (self w) = Some x -> attr a w = (Ok x, w).
Proof. intros H. unfold attr. by rewrite H. Qed.

Lemma load_Some p l w : heap w !! p = Some l -> load p w = (Ok l, w).
Proof.
  intros H. unfold load. by rewrite (list_lookup_total_correct _ _ _ H).
Qed.

Lemma list_getitem_nat p l (i : nat) x w :
  heap w !! p = Some l -> l !! i = Some x ->
  list_getitem p (Z.of_nat i) w = (Ok x, w).
Proof.
  intros Hp Hi. unfold list_getitem.
  rewrite (bind_Ok _ _ _ _ _ (load_Some _ _ _ Hp)).
  unfold lift. by rewrite (getitem_nat _ _ _ Hi).
Qed.

Lemma list_getitem_Ok p l i x w :
  heap w !! p = Some l -> getitem l i = Ok x -> list_getitem p i w = (Ok x, w).
Proof.
  intros Hp Hi. unfold list_getitem.
  rewrite (bind_Ok _ _ _ _ _ (load_Some _ _ _ Hp)).
  unfold lift. by rewrite Hi.
Qed.

Lemma list_setitem_nat p l (i : nat) x w :
  heap w !! p = Some l -> (i < length l)%nat ->
  list_setitem p (Z.of_nat i) x w =
    (Ok tt, mkWorld (<[p := <[i := x]> l]> (heap w)) (self w)).
Proof.
  intros Hp Hi. unfold list_setitem.
  rewrite (bind_Ok _ _ _ _ _ (load_Some _ _ _ Hp)).
  unfold bind, lift. by rewrite setitem_nat.
Qed.

Ltac unfold_M :=
  unfold Packet_new, list_getitem, list_setitem, get_source, get_self,
    set_self, attr, alloc, load, store, lift, raise, ret, bind in *.

(** ** One step of the relaxation loop *)

Lemma world_eta w lv v nh :
  heap w !! lv = Some v -> next_hop (self w) = Some nh ->
  mkWorld (<[lv := v]> (heap w)) (set_next_hop nh (self w)) = w.
Proof.
  destruct w as [h [i n ns ve nx]]; simpl. intros Hv ->.
  by rewrite list_insert_id.
Qed.

Lemma relax_entry_ok p cand u (i : nat) w s lv v nh a b :
  pkt_source p = s ->
  vector (self w) = Some lv -> heap w !! lv = Some v ->
  next_hop (self w) = Some nh ->
  cand !! i = Some a -> v !! i = Some b -> (i < length nh)%nat ->
  relax_entry p cand u (Z.of_nat i) w =
    if a <? b
    then (Ok true, mkWorld (<[lv := <[i := a]> v]> (heap w))
                           (set_next_hop (<[i := s]> nh) (self w)))
    else (Ok u, w).
Proof.
  intros Hs Hlv Hv Hnh Ha Hb Hi.
  assert (Hget : lift (getitem cand (Z.of_nat i)) w = (Ok a, w))
    by (unfold lift; by rewrite (getitem_nat _ _ _ Ha)).
  unfold relax_entry.
  rewrite (bind_Ok _ _ _ _ _ Hget).
  rewrite (bind_Ok _ _ _ _ _ (attr_Some _ _ _ Hlv)).
  rewrite (bind_Ok _ _ _ _ _ (list_getitem_nat _ _ _ _ _ Hv Hb)).
  destruct (a <? b); [|reflexivity].
  rewrite (bind_Ok _ _ _ _ _ Hget).
  rewrite (bind_Ok _ _ _ _ _ (attr_Some _ _ _ Hlv)).
  erewrite bind_Ok
    by (eapply list_setitem_nat; [exact Hv | by eapply lookup_lt_Some]).
  erewrite bind_Ok by (by apply attr_Some).
  unfold bind, lift, set_self, ret, get_source; simpl.
  rewrite Hs. by rewrite setitem_nat.
Qed.

Lemma relax_loop_ok p cand s lv (ixs : list nat) :
  pkt_source p = s ->
  forall w u v nh,
  vector (self w) = Some lv -> heap w !! lv = Some v ->
  next_hop (self w) = Some nh ->
  Forall (fun i => i < length cand /\ i < length v /\ i < length nh)%nat ixs ->
  foldM (relax_entry p cand) u (Z.of_nat <$> ixs) w =
    let '(v', nh', u') := foldl (relax1 s cand) (v, nh, u) ixs in
    (Ok u', mkWorld (<[lv := v']> (heap w)) (set_next_hop nh' (self w))).
Proof.
  intros Hs. induction ixs as [|i ixs IH]; intros w u v nh Hlv Hv Hnh Hin.
  - simpl. unfold ret. by rewrite world_eta.
  - apply Forall_cons in Hin as [(Hic & Hiv & Hin') Hin].
    destruct (lookup_lt_is_Some_2 cand i Hic) as [a Ha].
    destruct (lookup_lt_is_Some_2 v i Hiv) as [b Hb].
    simpl. unfold bind.
    rewrite (relax_entry_ok _ _ _ _ _ _ _ _ _ _ _ Hs Hlv Hv Hnh Ha Hb Hin').
    rewrite Ha, Hb. destruct (a <? b).
    + erewrite IH; simpl; [| done | by apply list_lookup_insert_eq, lookup_lt_is_Some_1 | done |].
      * destruct (foldl _ _ _) as [[v' nh'] u'].
        by rewrite list_insert_insert_eq.
      * eapply Forall_impl; [exact Hin|]. simpl.
        intros j. rewrite !length_insert. done.
    + by apply IH.
Qed.

(** The loop seen entry by entry. *)
Lemma relax_fold_spec s cand k m v nh u v' nh' u' :
  foldl (relax1 s cand) (v, nh, u) (seq k m) = (v', nh', u') ->
  length v' = length v /\ length nh' = length nh /\
  (forall d, v' !! d =
     if bool_decide (k <= d < k + m)%nat && improves cand v d
     then cand !! d else v !! d) /\
  (forall d, (d < length nh)%nat -> nh' !! d =
     if bool_decide (k <= d < k + m)%nat && improves cand v d
     then Some s else nh !! d) /\
  u' = u || existsb (improves cand v) (seq k m).
Proof.
  revert v' nh' u'. induction m as [|m IH]; intros v' nh' u'.
  - simpl. intros [= <- <- <-]. repeat split; try done.
    + intros d. rewrite bool_decide_eq_false_2 by lia. done.
    + intros d _. rewrite bool_decide_eq_false_2 by lia. done.
    + by rewrite orb_false_r.
  - rewrite seq_S, foldl_app.
    destruct (foldl (relax1 s cand) (v, nh, u) (seq k m)) as [[v1 nh1] u1] eqn:E.
    destruct (IH _ _ _ eq_refl) as (Hlv & Hlnh & Hv1 & Hnh1 & Hu1).
    rewrite existsb_app. cbn [existsb foldl]. rewrite orb_false_r.
    assert (Hvk : v1 !! (k + m)%nat = v !! (k + m)%nat).
    { rewrite Hv1. rewrite bool_decide_eq_false_2 by lia. done. }
    unfold relax1. rewrite Hvk.
    assert (Himp : improves cand v (k + m) =
      match cand !! (k + m)%nat, v !! (k + m)%nat with
      | Some a, Some b => a <? b | _, _ => false end) by done.
    assert (Hbd : forall d, d <> (k + m)%nat ->
      bool_decide (k <= d < k + S m)%nat = bool_decide (k <= d < k + m)%nat)
      by (intros; apply bool_decide_ext; lia).
    assert (Hbk : bool_decide (k <= k + m < k + S m)%nat = true)
      by (apply bool_decide_eq_true_2; lia).
    assert (Hk1 : (k + m < length v)%nat -> (k + m < length v1)%nat) by lia.
    destruct (cand !! (k + m)%nat) as [a|] eqn:Ea;
      [destruct (v !! (k + m)%nat) as [b|] eqn:Eb;
         [destruct (a <? b) eqn:Eab|]|];
      intros [= <- <- <-]; rewrite ?length_insert;
      (split; [done|]); (split; [done|]); (split; [|split]).
    all: try (intros d; destruct (decide (d = k + m)%nat) as [->|Hne];
              [ rewrite Hbk, Himp; simpl; rewrite ?Ea, ?Eb;
                first [ apply list_lookup_insert_eq, Hk1; by eapply lookup_lt_Some
                      | exact Hvk ]
              | rewrite (Hbd _ Hne), ?list_lookup_insert_ne by done; apply Hv1 ]).
    all: try (intros d Hd; destruct (decide (d = k + m)%nat) as [->|Hne];
              [ rewrite Hbk, Himp; simpl;
                first [ apply list_lookup_insert_eq; lia
                      | rewrite Hnh1 by done;
                        rewrite bool_decide_eq_false_2 by lia; done ]
              | rewrite (Hbd _ Hne), ?list_lookup_insert_ne by done; by apply Hnh1 ]).
    all: rewrite Himp, ?Hu1; by rewrite ?orb_false_r, ?orb_true_r.
Qed.

(** ** The comprehension of line 76 and the broadcast of lines 84-85 *)

Lemma candidate_ok p x w lv s c :
  vector (self w) = Some lv -> pkt_source p = s ->
  getitem (heap w !!! lv) s = Ok c ->
  candidate p x w = (Ok (x + c), w).
Proof.
  intros Hlv Hs Hc. unfold candidate.
  rewrite (bind_Ok _ _ _ _ _ (attr_Some _ _ _ Hlv)).
  unfold list_getitem, load, lift, bind, ret, get_source.
  by rewrite Hs, Hc.
Qed.

Lemma new_info_ok p costs w lv s c :
  vector (self w) = Some lv -> pkt_source p = s ->
  getitem (heap w !!! lv) s = Ok c ->
  mapM (candidate p) costs w = (Ok ((fun x => x + c) <$> costs), w).
Proof.
  intros Hlv Hs Hc. induction costs as [|x costs IH]; simpl; [done|].
  rewrite (bind_Ok _ _ _ _ _ (candidate_ok _ x _ _ _ _ Hlv Hs Hc)).
  by rewrite (bind_Ok _ _ _ _ _ IH).
Qed.

Lemma Packet_new_ok nb lv w :
  Packet_new nb lv w = (Ok (mkPacket nb (heap w !!! lv)), w).
Proof. reflexivity. Qed.

Lemma broadcast_loop lv w ns acc :
  vector (self w) = Some lv ->
  foldM (fun packets neighbor =>
           v <- attr vector ;;
           packet <- Packet_new neighbor v ;;
           ret (packets ++ [packet]))
        acc ns w
  = (Ok (acc ++ ((fun nb => mkPacket nb (heap w !!! lv)) <$> ns)), w).
Proof.
  intros Hlv. revert acc. induction ns as [|nb ns IH]; intros acc; simpl.
  - unfold ret. by rewrite app_nil_r.
  - erewrite bind_Ok; cycle 1.
    { rewrite (bind_Ok _ _ _ _ _ (attr_Some _ _ _ Hlv)).
      rewrite (bind_Ok _ _ _ _ _ (Packet_new_ok nb lv w)). reflexivity. }
    rewrite IH. by rewrite <- app_assoc.
Qed.

Lemma broadcast_ok w lv v ns :
  neighbors (self w) = Some ns -> vector (self w) = Some lv ->
  heap w !! lv = Some v ->
  broadcast w = (Ok ((fun nb => mkPacket nb v) <$> ns), w).
Proof.
  intros Hns Hlv Hv. unfold broadcast.
  rewrite (bind_Ok _ _ _ _ _ (attr_Some _ _ _ Hns)).
  rewrite (broadcast_loop lv) by done.
  by rewrite (list_lookup_total_correct _ _ _ Hv).
Qed.

(** ** [update] on a well-formed packet *)

Lemma update_ok p w s lv v nh ns costs c :
  pkt_source p = s ->
  vector (self w) = Some lv -> heap w !! lv = Some v ->
  next_hop (self w) = Some nh -> neighbors (self w) = Some ns ->
  pkt_costs p = costs -> getitem v s = Ok c ->
  let n := Z.to_nat (number_of_entities (self w)) in
  (n <= length costs)%nat -> (n <= length v)%nat -> (n <= length nh)%nat ->
  update p w =
    let '(v', nh', u') :=
      foldl (relax1 s ((fun x => x + c) <$> costs)) (v, nh, false) (seq 0 n) in
    (Ok (if u' then (fun nb => mkPacket nb v') <$> ns else []),
     mkWorld (<[lv := v']> (heap w)) (set_next_hop nh' (self w))).
Proof.
  intros Hs Hlv Hv Hnh Hns Hcosts Hc n Hn1 Hn2 Hn3.
  unfold update, get_costs. rewrite Hcosts.
  rewrite <- (list_lookup_total_correct _ _ _ Hv) in Hc.
  rewrite (bind_Ok _ _ _ _ _ (new_info_ok _ costs _ _ _ _ Hlv Hs Hc)).
  erewrite bind_Ok by reflexivity.
  rewrite range_seq. fold n.
  unfold bind at 1.
  rewrite (relax_loop_ok _ _ _ _ _ Hs _ _ _ _ Hlv Hv Hnh).
  - destruct (foldl _ _ _) as [[v' nh'] u'].
    destruct u'; [|done].
    apply (broadcast_ok _ lv); [done|done|]. cbn [heap].
    apply list_lookup_insert_eq. by eapply lookup_lt_Some.
  - apply Forall_forall. intros i Hi%elem_of_seq.
    rewrite length_fmap. lia.
Qed.

(** ** [initialize_costs] *)

Lemma setitem_Z {A} (l : list A) i x :
  0 <= i < Z.of_nat (length l) -> setitem l i x = Ok (<[Z.to_nat i := x]> l).
Proof.
  intros Hi. rewrite <- (Z2Nat.id i) at 1 by lia.
  apply setitem_nat. lia.
Qed.

Lemma list_setitem_Z p l i x w :
  heap w !! p = Some l -> 0 <= i < Z.of_nat (length l) ->
  list_setitem p i x w =
    (Ok tt, mkWorld (<[p := <[Z.to_nat i := x]> l]> (heap w)) (self w)).
Proof.
  intros Hp Hi. rewrite <- (Z2Nat.id i) at 1 by lia.
  apply list_setitem_nat; [done | lia].
Qed.

Lemma heap_insert_last (h : list (list Z)) l l' :
  <[length h := l']> (h ++ [l]) = h ++ [l'].
Proof.
  rewrite <- (Nat.add_0_r (length h)). by rewrite insert_app_r.
Qed.

Lemma heap_lookup_last (h : list (list Z)) l : (h ++ [l]) !! length h = Some l.
Proof. by rewrite list_lookup_middle. Qed.

Lemma init_vector_loop lv nc : forall w v,
  heap w !! lv = Some v ->
  Forall (fun link => 0 <= fst link < Z.of_nat (length v)) nc ->
  foldM (fun (_ : unit) link => list_setitem lv (fst link) (snd link)) tt nc w =
    (Ok tt,
     mkWorld (<[lv := foldl (fun v link => <[Z.to_nat (fst link) := snd link]> v)
                            v nc]> (heap w))
             (self w)).
Proof.
  induction nc as [|[n c] nc IH]; intros w v Hv Hin; simpl.
  - unfold ret. rewrite list_insert_id by done. by destruct w.
  - apply Forall_cons in Hin as [Hn Hin]. simpl in Hn.
    rewrite (bind_Ok _ _ _ _ _ (list_setitem_Z _ _ _ _ _ Hv Hn)).
    erewrite IH; simpl.
    + by rewrite list_insert_insert_eq.
    + apply list_lookup_insert_eq. by eapply lookup_lt_Some.
    + by rewrite length_insert.
Qed.

Lemma init_next_hop_loop lv ns : forall w nh acc,
  Forall (fun n => 0 <= n < Z.of_nat (length nh)) ns ->
  foldM (fun '(nh, packets) neighbor =>
           nh' <- lift (setitem nh neighbor neighbor) ;;
           packet <- Packet_new neighbor lv ;;
           ret (nh', packets ++ [packet]))
        (nh, acc) ns w =
    (Ok (foldl (fun nh neighbor => <[Z.to_nat neighbor := neighbor]> nh) nh ns,
         acc ++ ((fun nb => mkPacket nb (heap w !!! lv)) <$> ns)), w).
Proof.
  induction ns as [|n ns IH]; intros w nh acc Hin; simpl.
  - unfold ret. by rewrite app_nil_r.
  - apply Forall_cons in Hin as [Hn Hin].
    erewrite bind_Ok; cycle 1.
    { unfold bind at 1. unfold lift at 1. rewrite setitem_Z by done.
      rewrite (bind_Ok _ _ _ _ _ (Packet_new_ok n lv w)). reflexivity. }
    rewrite IH by (by rewrite length_insert).
    by rewrite <- app_assoc.
Qed.

Lemma initialize_costs_ok nc w :
  let idx := index (self w) in
  let n := number_of_entities (self w) in
  let lv := length (heap w) in
  0 <= idx < n ->
  Forall (fun link => 0 <= fst link < n) nc ->
  initialize_costs nc w =
    (Ok ((fun nb => mkPacket nb (init_vector idx n nc)) <$> (fst <$> nc)),
     mkWorld (heap w ++ [init_vector idx n nc])
             (mkEntity idx n (Some (fst <$> nc)) (Some lv)
                       (Some (init_next_hop idx n (fst <$> nc))))).
Proof.
  intros idx n lv Hidx Hnc. subst lv. unfold initialize_costs.
  erewrite bind_Ok by reflexivity.
  erewrite bind_Ok by reflexivity.
  erewrite bind_Ok by reflexivity.
  cbn [self heap set_neighbors index number_of_entities]. fold idx n.
  erewrite bind_Ok; cycle 1.
  { apply list_setitem_Z with (l := replicate (Z.to_nat n) INFINITY).
    - apply heap_lookup_last.
    - rewrite length_replicate. lia. }
  cbn [self heap]. rewrite heap_insert_last.
  erewrite bind_Ok; cycle 1.
  { apply init_vector_loop.
    - apply heap_lookup_last.
    - rewrite length_insert, length_replicate.
      eapply Forall_impl; [exact Hnc|]. simpl. intros; lia. }
  cbn [self heap]. rewrite heap_insert_last.
  erewrite bind_Ok by reflexivity.
  erewrite bind_Ok; cycle 1.
  { unfold lift. rewrite setitem_Z; [reflexivity|].
    rewrite length_replicate. lia. }
  erewrite bind_Ok by reflexivity.
  erewrite bind_Ok; cycle 1.
  { apply init_next_hop_loop.
    rewrite length_insert, length_replicate.
    apply Forall_fmap. eapply Forall_impl; [exact Hnc|]. simpl. intros; lia. }
  cbn [heap]. rewrite (list_lookup_total_correct _ _ _ (heap_lookup_last _ _)).
  reflexivity.
Qed.

(** ** Any call of [update], also one that raises *)

Lemma relax_entry_any p cand u i w r w' :
  relax_entry p cand u i w = (r, w') ->
  w' = w \/
  exists lv n a b,
    vector (self w) = Some lv /\
    py_index (length (heap w !!! lv)) i = Some n /\
    getitem cand i = Ok a /\ (heap w !!! lv) !! n = Some b /\ a < b /\
    heap w' = <[lv := <[n := a]> (heap w !!! lv)]> (heap w) /\
    index (self w') = index (self w) /\
    number_of_entities (self w') = number_of_entities (self w) /\
    neighbors (self w') = neighbors (self w) /\
    vector (self w') = vector (self w).
Proof.
  unfold relax_entry. unfold_M. intros H.
  repeat (case_match; simplify_eq; simpl in * ).
  all: try (left; reflexivity).
  all: right;
    match goal with
    | Hg : getitem (heap _ !!! _) _ = Ok _,
      Hs : setitem (heap _ !!! _) _ _ = Ok _,
      Hlt : (_ <? _) = true |- _ =>
        apply getitem_Ok in Hg as (n & Hn & Hb);
        apply setitem_Ok in Hs as (n' & Hn' & ->);
        apply Z.ltb_lt in Hlt
    end; simplify_eq; eexists _, _, _, _; repeat split; eauto.
Qed.

(** The loops that leave the world alone. *)

Lemma candidate_any p x w r w' : candidate p x w = (r, w') -> w' = w.
Proof.
  unfold candidate. unfold_M. intros H.
  repeat (case_match; simplify_eq; simpl in * ); done.
Qed.

Lemma new_info_any p costs w r w' :
  mapM (candidate p) costs w = (r, w') -> w' = w.
Proof.
  revert r w'. induction costs as [|x costs IH]; simpl; intros r w' H.
  - unfold ret in H. by simplify_eq.
  - apply bind_inv in H as [(y & w1 & H1 & H)|(e & H1 & _)].
    + apply candidate_any in H1 as ->.
      apply bind_inv in H as [(ys & w2 & H2 & H)|(e & H2 & _)].
      * apply IH in H2 as ->. unfold ret in H. by simplify_eq.
      * by apply IH in H2.
    + by apply candidate_any in H1.
Qed.

(** The candidates are the envelope's costs plus one and the same cost
    to the sender, read before the loop starts. *)
Lemma new_info_inv p costs w cand w' :
  mapM (candidate p) costs w = (Ok cand, w') ->
  (costs = [] /\ cand = []) \/
  exists lv c,
    vector (self w) = Some lv /\
    getitem (heap w !!! lv) (pkt_source p) = Ok c /\
    cand = (fun x => x + c) <$> costs.
Proof.
  destruct costs as [|x costs]; simpl.
  - unfold ret. intros; simplify_eq. by left.
  - intros H. right.
    apply bind_inv in H as [(y & w1 & H1 & H)|(e & H1 & ?)]; [|done].
    assert (exists lv c, vector (self w) = Some lv /\
              getitem (heap w !!! lv) (pkt_source p) = Ok c)
      as (lv & c & Hlv & Hc).
    { clear H. unfold candidate in H1. unfold_M.
      repeat (case_match; simplify_eq; simpl in * ). eauto 10. }
    exists lv, c. repeat split; try done.
    pose proof (new_info_ok p (x :: costs) w lv _ c Hlv eq_refl Hc) as Hall.
    simpl in Hall. rewrite (bind_Ok _ _ _ _ _ H1) in Hall.
    rewrite H in Hall. by simplify_eq.
Qed.

Lemma broadcast_loop_any ns : forall acc w r w',
  foldM (fun packets neighbor =>
           v <- attr vector ;;
           packet <- Packet_new neighbor v ;;
           ret (packets ++ [packet]))
        acc ns w = (r, w') -> w' = w.
Proof.
  induction ns as [|nb ns IH]; intros acc w r w' H; simpl in H.
  - unfold ret in H. by simplify_eq.
  - apply bind_inv in H as [(ps & w2 & H2 & H)|(e & H2 & _)].
    + apply IH in H as ->. clear IH.
      unfold_M. by repeat (case_match; simplify_eq; simpl in * ).
    + unfold_M. by repeat (case_match; simplify_eq; simpl in * ).
Qed.

Lemma broadcast_any w r w' : broadcast w = (r, w') -> w' = w.
Proof.
  unfold broadcast. intros H.
  apply bind_inv in H as [(ns & w1 & H1 & H)|(e & H1 & _)].
  - apply broadcast_loop_any in H as ->.
    unfold attr in H1. by case_match; simplify_eq.
  - unfold attr in H1. by case_match; simplify_eq.
Qed.

Lemma Forall2_le_refl (l : list Z) : Forall2 Z.le l l.
Proof. apply Forall_Forall2_diag, Forall_forall. intros; lia. Qed.

Lemma Forall2_le_trans (l1 l2 l3 : list Z) :
  Forall2 Z.le l1 l2 -> Forall2 Z.le l2 l3 -> Forall2 Z.le l1 l3.
Proof.
  intros H12. revert l3. induction H12; intros l3 H23; inv H23; constructor.
  - lia.
  - eauto.
Qed.

Lemma lowers_refl w : lowers w w.
Proof.
  unfold lowers. repeat split; auto using Forall2_le_refl.
Qed.

Lemma lowers_trans w1 w2 w3 : lowers w1 w2 -> lowers w2 w3 -> lowers w1 w3.
Proof.
  intros (Hi & Hn & Hns & Hv & Hlen & Hh) (Hi' & Hn' & Hns' & Hv' & Hlen' & Hh').
  unfold lowers. repeat split; try congruence.
  - eapply Forall2_le_trans; [apply Hh'|apply Hh].
  - intros Hl. destruct (Hh l) as [_ E]. destruct (Hh' l) as [_ E'].
    rewrite E' by (by rewrite Hv). by apply E.
Qed.

Lemma relax_entry_lowers p cand u i w r w' :
  relax_entry p cand u i w = (r, w') -> lowers w w'.
Proof.
  intros [->|(lv & n & a & b & Hlv & Hn & Ha & Hb & Hab & Hh & Hi & Hne & Hns & Hv)]
    %relax_entry_any; [apply lowers_refl|].
  unfold lowers. rewrite Hh, length_insert. repeat split; try done.
  - destruct (decide (l = lv)) as [->|Hl].
    + destruct (decide (lv < length (heap w))%nat) as [Hlt|Hge].
      * rewrite list_lookup_total_insert_eq by done.
        rewrite <- (list_insert_id _ _ _ Hb) at 2.
        apply Forall2_insert; [apply Forall2_le_refl | lia].
      * rewrite list_insert_ge by lia. apply Forall2_le_refl.
    + rewrite list_lookup_total_insert_ne by done. apply Forall2_le_refl.
  - intros Hl. rewrite list_lookup_total_insert_ne; [done|congruence].
Qed.

Lemma relax_loop_lowers p cand xs : forall u w r w',
  foldM (relax_entry p cand) u xs w = (r, w') -> lowers w w'.
Proof.
  induction xs as [|x xs IH]; intros u w r w' H; simpl in H.
  - unfold ret in H. simplify_eq. apply lowers_refl.
  - apply bind_inv in H as [(u1 & w1 & H1 & H)|(e & H1 & _)].
    + eapply lowers_trans; [by eapply relax_entry_lowers | by eapply IH].
    + by eapply relax_entry_lowers.
Qed.

Lemma update_lowers p w r w' : update p w = (r, w') -> lowers w w'.
Proof.
  unfold update. intros H.
  apply bind_inv in H as [(cand & w2 & H2 & H)|(e & H2 & _)];
    apply new_info_any in H2 as ->; [|apply lowers_refl].
  apply bind_inv in H as [(e & w3 & H3 & H)|(e & H3 & _)];
    unfold get_self in H3; simplify_eq.
  apply bind_inv in H as [(u & w4 & H4 & H)|(e & H4 & _)];
    apply relax_loop_lowers in H4; [|done].
  destruct u.
  - by apply broadcast_any in H as ->.
  - unfold ret in H. by simplify_eq.
Qed.

Lemma deliver_lowers ps : forall w, lowers w (deliver ps w).
Proof.
  induction ps as [|p ps IH]; intros w; simpl.
  - apply lowers_refl.
  - eapply lowers_trans; [|apply IH].
    apply (update_lowers p w (fst (update p w))). by destruct (update p w).
Qed.

(** ** Non-negative costs keep the cost to oneself at 0 *)

Lemma getitem_elem_of {A} (l : list A) i x : getitem l i = Ok x -> x ∈ l.
Proof.
  intros (n & _ & Hn)%getitem_Ok. by eapply list_elem_of_lookup_2.
Qed.

Lemma relax_entry_self_cost p cand u i w r w' :
  Forall (Z.le 0) cand -> self_cost_ok w ->
  relax_entry p cand u i w = (r, w') -> self_cost_ok w'.
Proof.
  intros Hcand (lv & v & Hlv & Hv & Hpos & Hz).
  intros [->|(lv' & n & a & b & Hlv' & Hn & Ha & Hb & Hab & Hh & Hi & _ & _ & Hvec)]
    %relax_entry_any; [by exists lv, v|].
  assert (lv' = lv) by congruence; subst lv'.
  assert (Hvt : heap w !!! lv = v) by (by apply list_lookup_total_correct).
  rewrite Hvt in Hn, Hb, Hh.
  assert (0 <= a) as Ha0.
  { apply getitem_elem_of in Ha. by eapply (proj1 (Forall_forall _ _) Hcand). }
  exists lv, (<[n := a]> v). rewrite Hh, Hi. repeat split.
  - congruence.
  - apply list_lookup_insert_eq. by eapply lookup_lt_Some.
  - by apply Forall_insert.
  - destruct (decide (n = Z.to_nat (index (self w)))) as [->|Hne].
    + rewrite Hz in Hb. simplify_eq. lia.
    + by rewrite list_lookup_insert_ne.
Qed.

Lemma relax_loop_self_cost p cand xs : forall u w r w',
  Forall (Z.le 0) cand -> self_cost_ok w ->
  foldM (relax_entry p cand) u xs w = (r, w') -> self_cost_ok w'.
Proof.
  induction xs as [|x xs IH]; intros u w r w' Hcand Hw H; simpl in H.
  - unfold ret in H. by simplify_eq.
  - apply bind_inv in H as [(u1 & w1 & H1 & H)|(e & H1 & _)].
    + eapply IH; [done| |done]. by eapply relax_entry_self_cost.
    + by eapply relax_entry_self_cost.
Qed.

Lemma update_self_cost p w r w' :
  self_cost_ok w -> Forall (Z.le 0) (pkt_costs p) ->
  update p w = (r, w') -> self_cost_ok w'.
Proof.
  intros Hw Hcosts. unfold update, get_costs. intros H.
  apply bind_inv in H as [(cand & w2 & H2 & H)|(e & H2 & _)];
    [|by apply new_info_any in H2 as ->].
  pose proof (new_info_any _ _ _ _ _ H2) as ->.
  assert (Forall (Z.le 0) cand) as Hcand.
  { apply new_info_inv in H2 as [[_ ->]|(lv & c & Hlv & Hc & ->)];
      [constructor|].
    destruct Hw as (lv' & v & Hlv' & Hv & Hpos & _).
    assert (lv' = lv) by congruence; subst lv'.
    rewrite (list_lookup_total_correct _ _ _ Hv) in Hc.
    apply getitem_elem_of in Hc.
    pose proof (proj1 (Forall_forall _ _) Hpos _ Hc).
    apply Forall_fmap. eapply Forall_impl; [exact Hcosts|].
    simpl. intros; lia. }
  apply bind_inv in H as [(e & w3 & H3 & H)|(e & H3 & _)];
    unfold get_self in H3; simplify_eq.
  apply bind_inv in H as [(u & w4 & H4 & H)|(e & H4 & _)];
    apply relax_loop_self_cost in H4; try done.
  destruct u.
  - by apply broadcast_any in H as ->.
  - unfold ret in H. by simplify_eq.
Qed.

Lemma deliver_self_cost ps : forall w,
  self_cost_ok w ->
  Forall (fun p => Forall (Z.le 0) (pkt_costs p)) ps ->
  self_cost_ok (deliver ps w).
Proof.
  induction ps as [|p ps IH]; intros w Hw Hps; simpl; [done|].
  apply Forall_cons in Hps as [Hp Hps].
  destruct (update p w) as [r w'] eqn:E. simpl.
  apply IH; [|done]. by eapply update_self_cost.
Qed.

(** ** The tables built by [initialize_costs], entry by entry *)

Section foldl_insert.
Context {A : Type} (key : A -> nat) (val : A -> Z).

Local Abbreviation put := (fun (v : list Z) (a : A) => <[key a := val a]> v).

Lemma foldl_insert_length l v : length (foldl put v l) = length v.
Proof.
  revert v. induction l as [|a l IH]; intros v; simpl; [done|].
  by rewrite IH, length_insert.
Qed.

Lemma foldl_insert_notin l v d :
  (forall a, a ∈ l -> key a <> d) -> foldl put v l !! d = v !! d.
Proof.
  revert v. induction l as [|a l IH]; intros v Hd; simpl; [done|].
  rewrite IH by (intros; apply Hd; by right).
  apply list_lookup_insert_ne, Hd. by left.
Qed.

Lemma foldl_insert_in l v a :
  a ∈ l -> (forall a', a' ∈ l -> key a' = key a -> val a' = val a) ->
  (key a < length v)%nat ->
  foldl put v l !! key a = Some (val a).
Proof.
  revert v. induction l as [|a' l IH] using rev_ind; intros v Ha Hval Hlen.
  - by apply elem_of_nil in Ha.
  - rewrite foldl_app. simpl.
    destruct (decide (key a' = key a)) as [Hk|Hk].
    + rewrite Hk, list_lookup_insert_eq by (by rewrite foldl_insert_length).
      f_equal. apply Hval; [|done]. apply elem_of_app. right. by left.
    + rewrite list_lookup_insert_ne by done.
      apply IH; [|intros; apply Hval; [apply elem_of_app; by left|done]|done].
      apply elem_of_app in Ha as [Ha|Ha]; [done|].
      apply list_elem_of_singleton in Ha. by subst.
Qed.

Lemma foldl_insert_Forall (P : Z -> Prop) l v :
  Forall P v -> Forall (fun a => P (val a)) l -> Forall P (foldl put v l).
Proof.
  revert v. induction l as [|a l IH]; intros v Hv Hl; simpl; [done|].
  apply Forall_cons in Hl as [Ha Hl].
  apply IH; [|done]. by apply Forall_insert.
Qed.
Lemma foldl_insert_keep l v d x :
  (forall a, a ∈ l -> key a = d -> val a = x) -> v !! d = Some x ->
  foldl put v l !! d = Some x.
Proof.
  revert v. induction l as [|a l IH]; intros v Hl Hv; simpl; [done|].
  apply IH; [intros; apply Hl; [by right|done]|].
  destruct (decide (key a = d)) as [Hk|Hk].
  - rewrite Hk, (Hl a); [|by left|done].
    apply list_lookup_insert_eq. by eapply lookup_lt_Some.
  - by rewrite list_lookup_insert_ne.
Qed.
End foldl_insert.

Lemma NoDup_fst_functional {A B} (l : list (A * B)) x y1 y2 :
  NoDup (fst <$> l) -> (x, y1) ∈ l -> (x, y2) ∈ l -> y1 = y2.
Proof.
  induction l as [|[x' y'] l IH]; csimpl; intros Hnd H1 H2.
  - by apply elem_of_nil in H1.
  - apply NoDup_cons in Hnd as [Hx' Hnd].
    apply elem_of_cons in H1 as [H1|H1]; apply elem_of_cons in H2 as [H2|H2];
      simplify_eq; try done.
    + destruct Hx'. by apply (list_elem_of_fmap_2 fst _ (x', y2)).
    + destruct Hx'. by apply (list_elem_of_fmap_2 fst _ (x', y1)).
    + by apply IH.
Qed.

Lemma init_vector_length idx n nc : length (init_vector idx n nc) = Z.to_nat n.
Proof.
  unfold init_vector.
  rewrite (foldl_insert_length (fun link => Z.to_nat (fst link)) snd).
  by rewrite length_insert, length_replicate.
Qed.

Lemma init_next_hop_length idx n ns : length (init_next_hop idx n ns) = Z.to_nat n.
Proof.
  unfold init_next_hop.
  rewrite (foldl_insert_length Z.to_nat (fun nb => nb)).
  by rewrite length_insert, length_replicate.
Qed.

Lemma init_vector_neighbor idx n nc nb c :
  Forall (fun link => 0 <= fst link < n) nc -> NoDup (fst <$> nc) ->
  (nb, c) ∈ nc ->
  init_vector idx n nc !! Z.to_nat nb = Some c.
Proof.
  intros Hin Hnd Hnb. unfold init_vector.
  pose proof (proj1 (Forall_forall _ _) Hin) as Hin'.
  apply (foldl_insert_in (fun link => Z.to_nat (fst link)) snd _ _ (nb, c)).
  - done.
  - intros [nb' c'] Hnb' Hk. simpl in *.
    pose proof (Hin' _ Hnb). pose proof (Hin' _ Hnb'). simpl in *.
    assert (nb' = nb) as -> by lia.
    by eapply NoDup_fst_functional.
  - simpl. rewrite length_insert, length_replicate.
    pose proof (Hin' _ Hnb). simpl in *. lia.
Qed.

Lemma init_vector_other idx n nc (d : nat) :
  Forall (fun link => 0 <= fst link < n) nc ->
  Z.of_nat d ∉ fst <$> nc ->
  init_vector idx n nc !! d =
    <[Z.to_nat idx := 0]> (replicate (Z.to_nat n) INFINITY) !! d.
Proof.
  intros Hin Hd. unfold init_vector.
  apply (foldl_insert_notin (fun link => Z.to_nat (fst link)) snd).
  intros [nb c] Hnb Hk. simpl in Hk. apply Hd.
  pose proof (proj1 (Forall_forall _ _) Hin _ Hnb). simpl in *.
  apply list_elem_of_fmap. exists (nb, c). split; [simpl; lia|done].
Qed.

Lemma init_next_hop_neighbor idx n ns nb :
  Forall (fun nb => 0 <= nb < n) ns -> nb ∈ ns ->
  init_next_hop idx n ns !! Z.to_nat nb = Some nb.
Proof.
  intros Hin Hnb. unfold init_next_hop.
  pose proof (proj1 (Forall_forall _ _) Hin) as Hin'.
  apply (foldl_insert_in Z.to_nat (fun nb => nb) _ _ nb).
  - done.
  - intros nb' Hnb' Hk. pose proof (Hin' _ Hnb). pose proof (Hin' _ Hnb').
    simpl in *. lia.
  - rewrite length_insert, length_replicate. pose proof (Hin' _ Hnb).
    simpl in *. lia.
Qed.

Lemma init_next_hop_other idx n ns (d : nat) :
  Forall (fun nb => 0 <= nb < n) ns -> Z.of_nat d ∉ ns ->
  init_next_hop idx n ns !! d =
    <[Z.to_nat idx := idx]> (replicate (Z.to_nat n) 0) !! d.
Proof.
  intros Hin Hd. unfold init_next_hop.
  apply (foldl_insert_notin Z.to_nat (fun nb => nb)).
  intros nb Hnb Hk. apply Hd.
  pose proof (proj1 (Forall_forall _ _) Hin _ Hnb). simpl in *.
  by replace (Z.of_nat d) with nb by lia.
Qed.

(** * The claims *)

Lemma Active_getitem w lv v nh ns s :
  Active w lv v nh ns -> s ∈ ns ->
  exists c, v !! Z.to_nat s = Some c /\ getitem v s = Ok c.
Proof.
  intros (_ & _ & _ & _ & Hlen & _ & Hns) Hs.
  pose proof (proj1 (Forall_forall _ _) Hns _ Hs) as Hr. simpl in Hr.
  destruct (lookup_lt_is_Some_2 v (Z.to_nat s)) as [c Hc]; [lia|].
  exists c. split; [done|].
  rewrite <- (Z2Nat.id s) by lia. by apply getitem_nat.
Qed.

(** C1. On an initialized entity, for an envelope of length N whose
    sender is a neighbour, [update] returns normally and has relaxed every
    destination d < N: with candidate = envelope.vector[d] + (the cost to
    the sender at the start of the call), exactly when candidate <
    vector[d] the new vector[d] is the candidate and the new nextHop[d] is
    the sender; otherwise both entries are as before. *)
Theorem update_relaxes w lv v nh ns p s costs :
  Active w lv v nh ns ->
  pkt_source p = s -> s ∈ ns ->
  pkt_costs p = costs ->
  length costs = Z.to_nat (number_of_entities (self w)) ->
  exists c out w' v' nh',
    v !! Z.to_nat s = Some c /\
    update p w = (Ok out, w') /\
    vector (self w') = Some lv /\ heap w' !! lv = Some v' /\
    next_hop (self w') = Some nh' /\
    forall d, (d < Z.to_nat (number_of_entities (self w)))%nat ->
      exists x b, costs !! d = Some x /\ v !! d = Some b /\
        if x + c <? b
        then v' !! d = Some (x + c) /\ nh' !! d = Some s
        else v' !! d = Some b /\ nh' !! d = nh !! d.
Proof.
  intros HA Hs Hsn Hcosts Hlen.
  destruct (Active_getitem _ _ _ _ _ _ HA Hsn) as (c & Hc & Hgc).
  destruct HA as (Hlv & Hv & Hnh & Hns & Hlv' & Hlnh & _).
  pose proof (update_ok p w s lv v nh ns costs c Hs Hlv Hv Hnh Hns Hcosts Hgc) as Hup.
  simpl in Hup. specialize (Hup ltac:(lia) ltac:(lia) ltac:(lia)).
  destruct (foldl _ _ _) as [[v' nh'] u'] eqn:E.
  apply relax_fold_spec in E as (Hl1 & Hl2 & Hv' & Hnh' & _).
  eexists c, _, _, v', nh'. repeat split; try done.
  - simpl. apply list_lookup_insert_eq. by eapply lookup_lt_Some.
  - intros d Hd.
    destruct (lookup_lt_is_Some_2 costs d) as [x Hx]; [lia|].
    destruct (lookup_lt_is_Some_2 v d) as [b Hb]; [lia|].
    exists x, b. split; [done|]. split; [done|].
    rewrite Hv', Hnh' by lia.
    rewrite bool_decide_eq_true_2 by lia. unfold improves.
    rewrite list_lookup_fmap, Hx, Hb. simpl.
    by destruct (x + c <? b).
Qed.

Lemma node0_active_Active : Active node0_active 1%nat [0; 1; 999] [0; 1; 0] [1].
Proof.
  unfold Active. repeat split; try reflexivity.
  apply Forall_cons. split; [|constructor].
  change (0 <= 1 < 3). lia.
Defined.

Lemma update_relaxes_witness :
  Active node0_active 1%nat [0; 1; 999] [0; 1; 0] [1] /\
  pkt_source from_node1 = 1 /\ 1 ∈ [1] /\
  pkt_costs from_node1 = [1; 0; 1] /\
  exists c out w' v' nh',
    [0; 1; 999] !! Z.to_nat 1 = Some c /\
    update from_node1 node0_active = (Ok out, w') /\
    vector (self w') = Some 1%nat /\ heap w' !! 1%nat = Some v' /\
    next_hop (self w') = Some nh' /\
    forall d, (d < 3)%nat ->
      exists x b, [1; 0; 1] !! d = Some x /\ [0; 1; 999] !! d = Some b /\
        if x + c <? b
        then v' !! d = Some (x + c) /\ nh' !! d = Some 1
        else v' !! d = Some b /\ nh' !! d = [0; 1; 0] !! d.
Proof.
  split; [exact node0_active_Active|].
  split; [reflexivity|]. split; [apply list_elem_of_here|].
  split; [reflexivity|].
  apply (update_relaxes node0_active 1%nat [0; 1; 999] [0; 1; 0] [1]
           from_node1 1 [1; 0; 1]).
  - exact node0_active_Active.
  - reflexivity.
  - apply list_elem_of_here.
  - reflexivity.
  - reflexivity.
Defined.

Lemma relax1_no_improve s cand v nh u i :
  improves cand v i = false -> relax1 s cand (v, nh, u) i = (v, nh, u).
Proof.
  unfold improves, relax1.
  destruct (cand !! i); [|done]. destruct (v !! i); [|done]. by intros ->.
Qed.

Lemma relax_fold_no_improve s cand v nh u ixs :
  existsb (improves cand v) ixs = false ->
  foldl (relax1 s cand) (v, nh, u) ixs = (v, nh, u).
Proof.
  induction ixs as [|i ixs IH]; cbn [foldl existsb]; [done|].
  intros [Hi Hixs]%orb_false_elim.
  rewrite relax1_no_improve by done. by apply IH.
Qed.

Lemma deliver_no_change p w k :
  update p w = (Ok [], w) -> deliver (replicate k p) w = w.
Proof.
  intros H. induction k as [|k IH]; simpl; [done|]. by rewrite H.
Qed.

(** C2. On an initialized entity, for an envelope of length N whose
    sender is a neighbour, [update] returns normally and leaves as vector
    the entry-wise minimum of the old vector and the candidates.  It
    returns a non-empty list exactly when some entry of the vector is
    strictly smaller after the call than before.  Then the list has one
    envelope per neighbour, in the order of [neighbors], each carrying
    the whole updated vector.  When no entry got smaller the list is
    empty and the state is the one before the call, so delivering the
    same envelope any number of times changes nothing. *)
Theorem update_output w lv v nh ns p s costs :
  Active w lv v nh ns ->
  pkt_source p = s -> s ∈ ns ->
  pkt_costs p = costs ->
  length costs = Z.to_nat (number_of_entities (self w)) ->
  exists c out w' v',
    v !! Z.to_nat s = Some c /\
    update p w = (Ok out, w') /\
    vector_of w' = Some v' /\
    (forall d, (d < Z.to_nat (number_of_entities (self w)))%nat ->
       exists x b, costs !! d = Some x /\ v !! d = Some b /\
                   v' !! d = Some (Z.min b (x + c))) /\
    let improved :=
      exists d b b', v !! d = Some b /\ v' !! d = Some b' /\ b' < b in
    (out <> [] <-> improved) /\
    (improved -> out = (fun nb => mkPacket nb v') <$> ns) /\
    (~ improved ->
       out = [] /\ w' = w /\ forall k, deliver (replicate k p) w = w).
Proof.
  intros HA Hs Hsn Hcosts Hlen.
  destruct (Active_getitem _ _ _ _ _ _ HA Hsn) as (c & Hc & Hgc).
  destruct HA as (Hlv & Hv & Hnh & Hns & Hlv' & Hlnh & _).
  pose proof (update_ok p w s lv v nh ns costs c Hs Hlv Hv Hnh Hns Hcosts Hgc) as Hup.
  simpl in Hup. specialize (Hup ltac:(lia) ltac:(lia) ltac:(lia)).
  set (n := Z.to_nat (number_of_entities (self w))) in *.
  set (cand := (fun x => x + c) <$> costs) in *.
  destruct (foldl (relax1 s cand) (v, nh, false) (seq 0 n))
    as [[v' nh'] u'] eqn:E.
  pose proof E as (Hl1 & Hl2 & Hv' & _ & Hu')%relax_fold_spec.
  simpl in Hu'.
  assert (Hvec : vector_of (mkWorld (<[lv := v']> (heap w))
                                    (set_next_hop nh' (self w))) = Some v').
  { unfold vector_of. cbn [self heap set_next_hop vector]. rewrite Hlv.
    apply list_lookup_insert_eq. by eapply lookup_lt_Some. }
  assert (Hmin : forall d, (d < n)%nat ->
            exists x b, costs !! d = Some x /\ v !! d = Some b /\
                        v' !! d = Some (Z.min b (x + c))).
  { intros d Hd.
    destruct (lookup_lt_is_Some_2 costs d) as [x Hx]; [lia|].
    destruct (lookup_lt_is_Some_2 v d) as [b Hb]; [lia|].
    exists x, b. split; [done|]. split; [done|].
    rewrite Hv'. rewrite bool_decide_eq_true_2 by lia.
    unfold improves, cand. rewrite list_lookup_fmap, Hx, Hb. simpl.
    destruct (x + c <? b) eqn:Elt; f_equal; lia. }
  assert (Himp : u' = true <->
            exists d b b', v !! d = Some b /\ v' !! d = Some b' /\ b' < b).
  { rewrite Hu', existsb_exists. split.
    - intros (d & Hd & Hi). apply list_elem_of_In, elem_of_seq in Hd.
      destruct (Hmin d) as (x & b & Hx & Hb & Hb'); [lia|].
      unfold improves, cand in Hi.
      rewrite list_lookup_fmap, Hx, Hb in Hi. simpl in Hi.
      exists d, b, (Z.min b (x + c)). repeat split; try done. lia.
    - intros (d & b & b' & Hb & Hb' & Hlt).
      pose proof (lookup_lt_Some _ _ _ Hb) as Hd.
      destruct (Hmin d) as (x & b0 & Hx & Hb0 & Hm); [lia|].
      exists d. split; [apply list_elem_of_In, elem_of_seq; lia|].
      unfold improves, cand. rewrite list_lookup_fmap, Hx, Hb. simpl.
      simplify_eq. lia. }
  destruct u'.
  - (* some entry got smaller *)
    eexists c, _, _, v'. split; [done|]. split; [exact Hup|].
    split; [exact Hvec|]. split; [exact Hmin|].
    assert (Hany := proj1 Himp eq_refl).
    split; [|split].
    + split; [done|]. intros _ Hnil.
      apply fmap_nil_inv in Hnil. subst ns. by apply elem_of_nil in Hsn.
    + done.
    + intros Hno. by destruct Hno.
  - (* no entry got smaller *)
    rewrite relax_fold_no_improve in E
      by (symmetry in Hu'; exact Hu').
    assert (v' = v /\ nh' = nh) as [-> ->] by (split; congruence).
    rewrite world_eta in Hup, Hvec by done.
    exists c, [], w, v. split; [done|]. split; [exact Hup|].
    split; [exact Hvec|]. split; [exact Hmin|].
    assert (Hnone : ~ exists d b b',
              v !! d = Some b /\ v !! d = Some b' /\ b' < b).
    { intros Hany. apply Himp in Hany. done. }
    split; [|split].
    + split; [done|]. intros Hany. by destruct Hnone.
    + intros Hany. by destruct Hnone.
    + intros _. split; [done|]. split; [done|].
      intros k. by apply deliver_no_change.
Qed.

Lemma update_output_witness :
  Active node0_active 1%nat [0; 1; 999] [0; 1; 0] [1] /\
  pkt_source from_node1 = 1 /\ 1 ∈ [1] /\
  pkt_costs from_node1 = [1; 0; 1] /\
  exists c out w' v',
    [0; 1; 999] !! Z.to_nat 1 = Some c /\
    update from_node1 node0_active = (Ok out, w') /\
    vector_of w' = Some v' /\
    (forall d, (d < 3)%nat ->
       exists x b, [1; 0; 1] !! d = Some x /\ [0; 1; 999] !! d = Some b /\
                   v' !! d = Some (Z.min b (x + c))) /\
    let improved :=
      exists d b b', [0; 1; 999] !! d = Some b /\ v' !! d = Some b' /\ b' < b in
    (out <> [] <-> improved) /\
    (improved -> out = (fun nb => mkPacket nb v') <$> [1]) /\
    (~ improved ->
       out = [] /\ w' = node0_active /\
       forall k, deliver (replicate k from_node1) node0_active = node0_active).
Proof.
  split; [exact node0_active_Active|].
  split; [reflexivity|]. split; [apply list_elem_of_here|].
  split; [reflexivity|].
  apply (update_output node0_active 1%nat [0; 1; 999] [0; 1; 0] [1]
           from_node1 1 [1; 0; 1]).
  - exact node0_active_Active.
  - reflexivity.
  - apply list_elem_of_here.
  - reflexivity.
  - reflexivity.
Defined.

Lemma lowers_vector_of w w' v :
  lowers w w' -> vector_of w = Some v ->
  exists v', vector_of w' = Some v' /\ Forall2 Z.le v' v.
Proof.
  intros (_ & _ & _ & Hvec & Hlen & Hh). unfold vector_of. rewrite Hvec.
  destruct (vector (self w)) as [lv|]; [|done]. intros Hv.
  exists (heap w' !!! lv). split.
  - apply list_lookup_lookup_total_lt. rewrite Hlen. by eapply lookup_lt_Some.
  - rewrite <- (list_lookup_total_correct _ _ _ Hv). apply Hh.
Qed.

(** C3. Whatever envelopes are delivered to an entity that has a vector,
    in whatever order, and whether or not a call raises, the vector keeps
    its length and every entry ends strictly smaller than or equal to what
    it was.  (A single call is the sequence of one envelope.) *)
Theorem vector_never_increases w v ps :
  vector_of w = Some v ->
  exists v', vector_of (deliver ps w) = Some v' /\
    length v' = length v /\
    forall d x, v !! d = Some x ->
      exists x', v' !! d = Some x' /\ (x' < x \/ x' = x).
Proof.
  intros Hv.
  destruct (lowers_vector_of _ _ _ (deliver_lowers ps w) Hv) as (v' & Hv' & Hle).
  exists v'. split; [done|]. split; [by eapply Forall2_length|].
  intros d x Hx.
  destruct (Forall2_lookup_r _ _ _ _ _ Hle Hx) as (x' & Hx' & Hxx).
  exists x'. split; [done|]. lia.
Qed.

Lemma vector_never_increases_witness :
  vector_of node0_active = Some [0; 1; 999] /\
  exists v', vector_of (deliver [from_node1] node0_active) = Some v' /\
    length v' = length [0; 1; 999] /\
    forall d x, [0; 1; 999] !! d = Some x ->
      exists x', v' !! d = Some x' /\ (x' < x \/ x' = x).
Proof.
  split; [reflexivity|].
  apply (vector_never_increases node0_active [0; 1; 999] [from_node1]).
  reflexivity.
Defined.

(** The state right after [initialize_costs] on a fresh entity. *)
Lemma initialize_costs_fresh idx n h nc :
  0 <= idx < n -> Forall (fun link => 0 <= fst link < n) nc ->
  initialize_costs nc (mkWorld h (Entity_init idx n)) =
    (Ok ((fun nb => mkPacket nb (init_vector idx n nc)) <$> (fst <$> nc)),
     mkWorld (h ++ [init_vector idx n nc])
             (mkEntity idx n (Some (fst <$> nc)) (Some (length h))
                       (Some (init_next_hop idx n (fst <$> nc))))).
Proof. intros. by apply (initialize_costs_ok nc (mkWorld h (Entity_init idx n))). Qed.

Lemma init_vector_Forall (P : Z -> Prop) idx n nc :
  P INFINITY -> P 0 -> Forall (fun link => P (snd link)) nc ->
  Forall P (init_vector idx n nc).
Proof.
  intros Hinf H0 Hnc. unfold init_vector.
  apply (foldl_insert_Forall (fun link => Z.to_nat (fst link)) snd P); [|done].
  apply Forall_insert; [|done]. by apply Forall_replicate.
Qed.

(** C10. After [initialize_costs] with link costs of at most 999, and
    after any sequence of deliveries, no entry of the vector exceeds 999:
    initialization stores only 999, 0 and link costs, and [update] only
    ever lowers an entry. *)
Theorem costs_never_exceed_INFINITY idx n h nc ps :
  0 <= idx < n ->
  Forall (fun link => 0 <= fst link < n /\ snd link <= INFINITY) nc ->
  exists v,
    vector_of (deliver ps (snd (initialize_costs nc (mkWorld h (Entity_init idx n)))))
      = Some v /\
    Forall (fun x => x <= INFINITY) v.
Proof.
  intros Hidx Hnc.
  rewrite initialize_costs_fresh;
    [|done|eapply Forall_impl; [exact Hnc|]; simpl; tauto].
  cbn [snd].
  set (w1 := mkWorld _ _).
  assert (Hv1 : vector_of w1 = Some (init_vector idx n nc)).
  { unfold vector_of, w1. cbn [self heap vector]. apply heap_lookup_last. }
  destruct (lowers_vector_of _ _ _ (deliver_lowers ps w1) Hv1) as (v & Hv & Hle).
  exists v. split; [done|].
  assert (Hinit : Forall (fun x => x <= INFINITY) (init_vector idx n nc)).
  { apply init_vector_Forall; [done|done|].
    eapply Forall_impl; [exact Hnc|]. simpl; tauto. }
  clear Hv Hv1. induction Hle as [|x y v v0 Hxy _ IH]; [constructor|].
  apply Forall_cons in Hinit as [Hy Hinit].
  constructor; [lia|by apply IH].
Qed.

Lemma costs_never_exceed_INFINITY_witness :
  0 <= 0 < 3 /\
  Forall (fun link : Z * Z => 0 <= fst link < 3 /\ snd link <= INFINITY) [(1, 1)] /\
  exists v,
    vector_of (deliver [from_node1]
                 (snd (initialize_costs [(1, 1)] (mkWorld [[1; 0; 1]] (Entity_init 0 3)))))
      = Some v /\
    Forall (fun x => x <= INFINITY) v.
Proof.
  assert (H1 : 0 <= 0 < 3) by lia.
  assert (H2 : Forall (fun link : Z * Z => 0 <= fst link < 3 /\ snd link <= INFINITY)
                      [(1, 1)]).
  { apply Forall_cons. split; [|constructor]. unfold INFINITY. simpl. lia. }
  split; [exact H1|]. split; [exact H2|].
  exact (costs_never_exceed_INFINITY 0 3 [[1; 0; 1]] [(1, 1)] [from_node1] H1 H2).
Defined.

Lemma init_vector_self idx n nc :
  0 <= idx < n ->
  Forall (fun link => fst link = idx -> snd link = 0) nc ->
  Forall (fun link => 0 <= fst link) nc ->
  init_vector idx n nc !! Z.to_nat idx = Some 0.
Proof.
  intros Hidx Hself Hpos. unfold init_vector.
  apply (foldl_insert_keep (fun link => Z.to_nat (fst link)) snd).
  - intros [nb c] Hin Hk. simpl in *.
    pose proof (proj1 (Forall_forall _ _) Hpos _ Hin).
    apply (proj1 (Forall_forall _ _) Hself _ Hin). simpl in *. lia.
  - apply list_lookup_insert_eq. rewrite length_replicate. lia.
Qed.

(** C4 as stated fails: an entity that is listed among its own
    neighbours has the 0 of vector[identity] overwritten by the listed
    cost.  Entity 0 of three, initialized with the single link (0, 5),
    ends with vector[0] = 5. *)
Lemma self_listed_link_overwrites_self_cost :
  ~ (forall nc,
       Forall (fun link : Z * Z => 0 <= fst link < 3 /\ 0 <= snd link) nc ->
       exists v,
         vector_of (snd (initialize_costs nc (mkWorld [] (Entity_init 0 3))))
           = Some v /\
         v !! Z.to_nat 0 = Some 0).
Proof.
  intros H. destruct (H [(0, 5)]) as (v & Hv & H0).
  - apply Forall_cons. split; [simpl; lia|constructor].
  - vm_compute in Hv. by simplify_eq.
Qed.

(** C4, amended.  After [initialize_costs] with non-negative link costs
    in which the entity is not listed as its own neighbour with a
    non-zero cost, and after any sequence of deliveries of envelopes
    that carry non-negative costs, whether or not a call raises,
    vector[identity] is 0. *)
Theorem self_cost_stays_zero idx n h nc ps :
  0 <= idx < n ->
  Forall (fun link => 0 <= fst link < n /\ 0 <= snd link /\
                      (fst link = idx -> snd link = 0)) nc ->
  Forall (fun p => Forall (Z.le 0) (pkt_costs p)) ps ->
  exists v,
    vector_of (deliver ps (snd (initialize_costs nc (mkWorld h (Entity_init idx n)))))
      = Some v /\
    v !! Z.to_nat idx = Some 0.
Proof.
  intros Hidx Hnc Hps.
  rewrite initialize_costs_fresh;
    [|done|eapply Forall_impl; [exact Hnc|]; simpl; tauto].
  cbn [snd]. set (w1 := mkWorld _ _).
  assert (Hw1 : self_cost_ok w1).
  { exists (length h), (init_vector idx n nc). repeat split.
    - apply heap_lookup_last.
    - apply init_vector_Forall; [done|done|].
      eapply Forall_impl; [exact Hnc|]. simpl; tauto.
    - apply init_vector_self; [done| |];
        (eapply Forall_impl; [exact Hnc|]; simpl; tauto). }
  destruct (deliver_self_cost ps w1 Hw1 Hps) as (lv & v & Hlv & Hv & _ & Hz).
  pose proof (deliver_lowers ps w1) as (Hi & _).
  exists v. split.
  - unfold vector_of. by rewrite Hlv.
  - by rewrite Hi in Hz.
Qed.

Lemma self_cost_stays_zero_witness :
  0 <= 0 < 3 /\
  Forall (fun link : Z * Z => 0 <= fst link < 3 /\ 0 <= snd link /\
                              (fst link = 0 -> snd link = 0)) [(1, 1)] /\
  Forall (fun p => Forall (Z.le 0) (pkt_costs p)) [from_node1] /\
  exists v,
    vector_of (deliver [from_node1]
                 (snd (initialize_costs [(1, 1)] (mkWorld [[1; 0; 1]] (Entity_init 0 3)))))
      = Some v /\
    v !! Z.to_nat 0 = Some 0.
Proof.
  assert (H1 : 0 <= 0 < 3) by lia.
  assert (H2 : Forall (fun link : Z * Z => 0 <= fst link < 3 /\ 0 <= snd link /\
                         (fst link = 0 -> snd link = 0)) [(1, 1)]).
  { apply Forall_cons. split; [|constructor]. simpl. lia. }
  assert (H3 : Forall (fun p => Forall (Z.le 0) (pkt_costs p)) [from_node1]).
  { apply Forall_cons. split; [|constructor].
    change (Forall (Z.le 0) [1; 0; 1]).
    repeat (apply Forall_cons; split; [lia|]). constructor. }
  split; [exact H1|]. split; [exact H2|]. split; [exact H3|].
  exact (self_cost_stays_zero 0 3 [[1; 0; 1]] [(1, 1)] [from_node1] H1 H2 H3).
Defined.

(** C9. Right after [initialize_costs], for a destination d that is
    neither the entity itself nor one of its neighbours, nextHop[d] is 0,
    the identity of entity 0, and [forward_next_hop d] returns that 0. *)
Theorem next_hop_default_is_0 idx n h nc d :
  0 <= idx < n ->
  Forall (fun link => 0 <= fst link < n) nc ->
  0 <= d < n -> d <> idx -> d ∉ (fst <$> nc) ->
  exists out w' nh,
    initialize_costs nc (mkWorld h (Entity_init idx n)) = (Ok out, w') /\
    next_hop (self w') = Some nh /\
    nh !! Z.to_nat d = Some 0 /\
    forward_next_hop d w' = (Ok 0, w').
Proof.
  intros Hidx Hnc Hd Hne Hnot.
  rewrite initialize_costs_fresh by done.
  eexists _, _, (init_next_hop idx n (fst <$> nc)).
  split; [reflexivity|]. split; [reflexivity|].
  assert (Hnh : init_next_hop idx n (fst <$> nc) !! Z.to_nat d = Some 0).
  { rewrite init_next_hop_other.
    - rewrite list_lookup_insert_ne by lia.
      apply lookup_replicate_2. lia.
    - apply Forall_fmap. eapply Forall_impl; [exact Hnc|]. done.
    - by rewrite Z2Nat.id by lia. }
  split; [done|].
  unfold forward_next_hop.
  erewrite bind_Ok by (by apply attr_Some).
  unfold lift. rewrite <- (Z2Nat.id d) at 1 by lia.
  by rewrite (getitem_nat _ _ _ Hnh).
Qed.

Lemma next_hop_default_is_0_witness :
  0 <= 0 < 3 /\
  Forall (fun link : Z * Z => 0 <= fst link < 3) [(1, 1)] /\
  0 <= 2 < 3 /\ 2 <> 0 /\ (2 ∉ (fst <$> [(1, 1)])) /\
  exists out w' nh,
    initialize_costs [(1, 1)] (mkWorld [[1; 0; 1]] (Entity_init 0 3)) = (Ok out, w') /\
    next_hop (self w') = Some nh /\
    nh !! Z.to_nat 2 = Some 0 /\
    forward_next_hop 2 w' = (Ok 0, w').
Proof.
  assert (H1 : 0 <= 0 < 3) by lia.
  assert (H2 : Forall (fun link : Z * Z => 0 <= fst link < 3) [(1, 1)]).
  { apply Forall_cons. split; [simpl; lia|constructor]. }
  assert (H3 : 0 <= 2 < 3) by lia.
  assert (H4 : 2 <> 0) by lia.
  assert (H5 : 2 ∉ (fst <$> [(1, 1)])).
  { simpl. intros [H|H]%elem_of_cons; [lia|by apply elem_of_nil in H]. }
  repeat (split; [assumption|]).
  exact (next_hop_default_is_0 0 3 [[1; 0; 1]] [(1, 1)] 2 H1 H2 H3 H4 H5).
Defined.

(** C8 as stated fails: on the three-entity network destination -1 is
    outside [0, 3), yet [forward_next_hop] returns a value for it. *)
Lemma forward_next_hop_negative_returns :
  ~ (forall d, ~ (0 <= d < 3) ->
       exists e, fst (forward_next_hop d node0_active) = Raise e).
Proof.
  intros H. destruct (H (-1)) as [e He]; [lia|]. discriminate He.
Qed.

(** C8, amended.  On an initialized entity of N entities
    [forward_next_hop] never changes the state; it returns
    nextHop[destination] for a destination in [0, N), returns
    nextHop[N + destination], the entry counted from the end, for a
    destination in [-N, 0), and raises IndexError for every other
    destination, that is >= N or < -N. *)
Theorem forward_next_hop_by_range w lv v nh ns d :
  Active w lv v nh ns ->
  let n := number_of_entities (self w) in
  forward_next_hop d w =
    (if decide (0 <= d < n) then Ok (nh !!! Z.to_nat d)
     else if decide (- n <= d < 0) then Ok (nh !!! Z.to_nat (n + d))
     else Raise IndexError,
     w).
Proof.
  intros (_ & _ & Hnh & _ & _ & Hlen & _) n.
  unfold forward_next_hop.
  rewrite (bind_Ok _ _ _ _ _ (attr_Some _ _ _ Hnh)).
  unfold lift, getitem, py_index. fold n in Hlen.
  repeat case_decide; try done; try (exfalso; lia).
  - by rewrite (list_lookup_lookup_total_lt nh (Z.to_nat d)) by lia.
  - replace (Z.of_nat (length nh) + d) with (n + d) by lia.
    by rewrite (list_lookup_lookup_total_lt nh (Z.to_nat (n + d))) by lia.
Qed.

Lemma forward_next_hop_by_range_witness :
  Active node0_active 1%nat [0; 1; 999] [0; 1; 0] [1] /\
  forward_next_hop (-2) node0_active = (Ok 1, node0_active) /\
  forward_next_hop (-4) node0_active = (Raise IndexError, node0_active) /\
  forward_next_hop 3 node0_active = (Raise IndexError, node0_active).
Proof.
  split; [exact node0_active_Active|].
  split; [|split].
  - exact (forward_next_hop_by_range node0_active 1%nat [0; 1; 999] [0; 1; 0] [1]
             (-2) node0_active_Active).
  - exact (forward_next_hop_by_range node0_active 1%nat [0; 1; 999] [0; 1; 0] [1]
             (-4) node0_active_Active).
  - exact (forward_next_hop_by_range node0_active 1%nat [0; 1; 999] [0; 1; 0] [1]
             3 node0_active_Active).
Defined.

(** C5 as stated fails on the sender: the one identity that
    [initialize_costs] gives to the envelope it builds for neighbour 1 of
    entity 0 is the neighbour's, 1, and not the entity's own, 0. *)
Lemma initial_envelope_names_the_neighbour :
  exists out w',
    initialize_costs [(1, 1)] node0 = (Ok out, w') /\
    (forall q, q ∈ out -> pkt_source q = 1) /\
    ~ (forall q, q ∈ out -> pkt_source q = index (self w')).
Proof.
  exists [mkPacket 1 [0; 1; 999]], node0_active.
  split; [reflexivity|]. split.
  - intros q Hq. apply list_elem_of_singleton in Hq. by subst.
  - intros H. specialize (H (mkPacket 1 [0; 1; 999]) (list_elem_of_here _ _)).
    discriminate H.
Qed.

(** C5, amended.  On a fresh entity (identity, N), for links to
    identities in [0, N) without duplicates, [initialize_costs] returns
    normally; it sets [neighbors] to the listed identities; the vector has
    N entries: the link cost at each neighbour, 0 at the entity itself
    (unless it is listed as a neighbour), 999 elsewhere; nextHop has N
    entries with nextHop[identity] = identity and nextHop[neighbor] =
    neighbor; and the result has one envelope per neighbour, in the order
    listed, built as [Packet(neighbor, vector)]: the identity it is given
    is that neighbour's, never the entity's own, and it carries the
    entity's current vector. *)
Theorem initialize_costs_effect idx n h nc :
  0 <= idx < n ->
  Forall (fun link => 0 <= fst link < n) nc ->
  NoDup (fst <$> nc) ->
  exists out w' lv v nh,
    initialize_costs nc (mkWorld h (Entity_init idx n)) = (Ok out, w') /\
    neighbors (self w') = Some (fst <$> nc) /\
    vector (self w') = Some lv /\ heap w' !! lv = Some v /\
    next_hop (self w') = Some nh /\
    length v = Z.to_nat n /\ length nh = Z.to_nat n /\
    (forall nb c, (nb, c) ∈ nc ->
       v !! Z.to_nat nb = Some c /\ nh !! Z.to_nat nb = Some nb) /\
    (idx ∉ (fst <$> nc) -> v !! Z.to_nat idx = Some 0) /\
    nh !! Z.to_nat idx = Some idx /\
    (forall d, (d < Z.to_nat n)%nat -> Z.of_nat d <> idx ->
       Z.of_nat d ∉ (fst <$> nc) -> v !! d = Some INFINITY) /\
    out = (fun nb => mkPacket nb v) <$> (fst <$> nc) /\
    (forall q, q ∈ out -> pkt_costs q = v).
Proof.
  intros Hidx Hnc Hnd.
  assert (Hns : Forall (fun nb => 0 <= nb < n) (fst <$> nc))
    by (by apply Forall_fmap).
  rewrite initialize_costs_fresh by done.
  eexists _, _, (length h), (init_vector idx n nc),
    (init_next_hop idx n (fst <$> nc)).
  split; [reflexivity|]. split; [reflexivity|]. split; [reflexivity|].
  split; [apply heap_lookup_last|]. split; [reflexivity|].
  split; [apply init_vector_length|]. split; [apply init_next_hop_length|].
  split; [|split; [|split; [|split; [|split]]]].
  - intros nb c Hin. split.
    + by apply init_vector_neighbor.
    + apply init_next_hop_neighbor; [done|].
      by apply (list_elem_of_fmap_2 fst _ (nb, c)).
  - intros Hself. rewrite <- (Z2Nat.id idx) in Hself by lia.
    rewrite init_vector_other by done.
    apply list_lookup_insert_eq. rewrite length_replicate. lia.
  - destruct (decide (idx ∈ fst <$> nc)) as [Hin|Hout].
    + by apply init_next_hop_neighbor.
    + rewrite <- (Z2Nat.id idx) in Hout by lia.
      rewrite init_next_hop_other by done.
      apply list_lookup_insert_eq. rewrite length_replicate. lia.
  - intros d Hd Hne Hout.
    rewrite init_vector_other by done.
    rewrite list_lookup_insert_ne by lia.
    by apply lookup_replicate_2.
  - reflexivity.
  - by intros q (nb & -> & _)%list_elem_of_fmap.
Qed.

Lemma initialize_costs_effect_witness :
  0 <= 0 < 3 /\
  Forall (fun link : Z * Z => 0 <= fst link < 3) [(1, 1)] /\
  NoDup (fst <$> [(1, 1)]) /\
  exists out w' lv v nh,
    initialize_costs [(1, 1)] (mkWorld [[1; 0; 1]] (Entity_init 0 3)) = (Ok out, w') /\
    neighbors (self w') = Some (fst <$> [(1, 1)]) /\
    vector (self w') = Some lv /\ heap w' !! lv = Some v /\
    next_hop (self w') = Some nh /\
    length v = Z.to_nat 3 /\ length nh = Z.to_nat 3 /\
    (forall nb c, (nb, c) ∈ [(1, 1)] ->
       v !! Z.to_nat nb = Some c /\ nh !! Z.to_nat nb = Some nb) /\
    (0 ∉ (fst <$> [(1, 1)]) -> v !! Z.to_nat 0 = Some 0) /\
    nh !! Z.to_nat 0 = Some 0 /\
    (forall d, (d < Z.to_nat 3)%nat -> Z.of_nat d <> 0 ->
       Z.of_nat d ∉ (fst <$> [(1, 1)]) -> v !! d = Some INFINITY) /\
    out = (fun nb => mkPacket nb v) <$> (fst <$> [(1, 1)]) /\
    (forall q, q ∈ out -> pkt_costs q = v).
Proof.
  assert (H1 : 0 <= 0 < 3) by lia.
  assert (H2 : Forall (fun link : Z * Z => 0 <= fst link < 3) [(1, 1)]).
  { apply Forall_cons. split; [simpl; lia|constructor]. }
  assert (H3 : NoDup (fst <$> [(1, 1)])).
  { apply NoDup_cons. split; [apply not_elem_of_nil|apply NoDup_nil_2]. }
  split; [exact H1|]. split; [exact H2|]. split; [exact H3|].
  exact (initialize_costs_effect 0 3 [[1; 0; 1]] [(1, 1)] H1 H2 H3).
Defined.

(** C7 as stated fails: when entity 1 advertises 999 for entity 2 and
    the cost to entity 1 is 1, the candidate for entity 2 is 1000. *)
Lemma candidate_exceeds_INFINITY :
  ~ (forall cand w',
       mapM (candidate from_node1) [1; 0; 999] early0_active = (Ok cand, w') ->
       Forall (fun x => x <= INFINITY) cand).
Proof.
  intros H. specialize (H [2; 1; 1000] early0_active eq_refl).
  apply Forall_cons in H as [_ H]. apply Forall_cons in H as [_ H].
  apply Forall_cons in H as [H _]. unfold INFINITY in H. lia.
Qed.

(** C7, amended.  In [update] every candidate is the plain sum of the
    envelope's entry and the entity's cost to the sender, in unbounded
    integers: nothing caps it at 999 and nothing wraps, so a candidate is
    above 999 exactly when the two addends sum to more than 999. *)
Theorem candidates_are_plain_sums w lv v nh ns p s costs :
  Active w lv v nh ns ->
  pkt_source p = s -> s ∈ ns ->
  exists c,
    v !! Z.to_nat s = Some c /\
    mapM (candidate p) costs w = (Ok ((fun x => x + c) <$> costs), w).
Proof.
  intros HA Hs Hsn.
  destruct (Active_getitem _ _ _ _ _ _ HA Hsn) as (c & Hc & Hgc).
  destruct HA as (Hlv & Hv & _).
  exists c. split; [done|].
  apply (new_info_ok p costs w lv s c); [done|done|].
  by rewrite (list_lookup_total_correct _ _ _ Hv).
Qed.

Lemma candidates_are_plain_sums_witness :
  Active early0_active 1%nat [0; 1; 999] [0; 1; 0] [1] /\
  pkt_source from_node1 = 1 /\ 1 ∈ [1] /\
  exists c,
    [0; 1; 999] !! Z.to_nat 1 = Some c /\
    mapM (candidate from_node1) [1; 0; 999] early0_active =
      (Ok ((fun x => x + c) <$> [1; 0; 999]), early0_active).
Proof.
  assert (HA : Active early0_active 1%nat [0; 1; 999] [0; 1; 0] [1]).
  { unfold Active. repeat split; try reflexivity.
    apply Forall_cons. split; [|constructor].
    change (0 <= 1 < 3). lia. }
  split; [exact HA|]. split; [reflexivity|].
  split; [apply list_elem_of_here|].
  exact (candidates_are_plain_sums early0_active 1%nat [0; 1; 999] [0; 1; 0] [1]
           from_node1 1 [1; 0; 999] HA eq_refl (list_elem_of_here _ _)).
Defined.

(** ** Delivering the same envelope twice *)

(** X17. Once an envelope of length N from a neighbour has been
    processed, processing it again changes nothing and returns nothing,
    provided its entry for the sender is not negative (a negative entry
    would lower the cost to the sender and so every candidate of the
    second round). *)
Lemma update_absorbed w lv v nh ns p s costs xs :
  Active w lv v nh ns ->
  pkt_source p = s -> s ∈ ns ->
  pkt_costs p = costs ->
  length costs = Z.to_nat (number_of_entities (self w)) ->
  costs !! Z.to_nat s = Some xs -> 0 <= xs ->
  update p (snd (update p w)) = (Ok [], snd (update p w)).
Proof.
  intros HA Hs Hsn Hcosts Hlen Hxs Hpos.
  destruct (Active_getitem _ _ _ _ _ _ HA Hsn) as (c & Hc & Hgc).
  pose proof HA as (Hlv & Hv & Hnh & Hns & Hlv' & Hlnh & Hin).
  pose proof (proj1 (Forall_forall _ _) Hin _ Hsn) as Hsr. simpl in Hsr.
  pose proof (update_ok p w s lv v nh ns costs c Hs Hlv Hv Hnh Hns Hcosts Hgc) as Hup.
  simpl in Hup. specialize (Hup ltac:(lia) ltac:(lia) ltac:(lia)).
  set (n := Z.to_nat (number_of_entities (self w))) in *.
  set (cand := (fun x => x + c) <$> costs) in *.
  destruct (foldl _ _ _) as [[v' nh'] u'] eqn:E.
  apply relax_fold_spec in E as (Hl1 & Hl2 & Hv' & _ & _).
  rewrite Hup. cbn [snd]. set (w' := mkWorld _ _).
  assert (Hv1 : heap w' !! lv = Some v')
    by (apply list_lookup_insert_eq; by eapply lookup_lt_Some).
  assert (Hc' : getitem v' s = Ok c).
  { rewrite <- (Z2Nat.id s) by lia. apply getitem_nat.
    rewrite Hv'. unfold improves, cand.
    rewrite list_lookup_fmap, Hxs, Hc. simpl.
    replace (xs + c <? c) with false by lia.
    by rewrite andb_false_r. }
  assert (Hlv1 : vector (self w') = Some lv) by done.
  assert (Hnh1 : next_hop (self w') = Some nh') by done.
  assert (Hns1 : neighbors (self w') = Some ns) by done.
  assert (Hn1 : number_of_entities (self w') = number_of_entities (self w))
    by done.
  clearbody w'.
  pose proof (update_ok p w' s lv v' nh' ns costs c Hs Hlv1 Hv1 Hnh1 Hns1
                Hcosts Hc') as Hup'.
  cbv zeta in Hup'. rewrite Hn1 in Hup'. fold n cand in Hup'.
  specialize (Hup' ltac:(lia) ltac:(lia) ltac:(lia)).
  rewrite relax_fold_no_improve in Hup'.
  - by rewrite world_eta in Hup'.
  - apply not_true_is_false. intros (d & Hd & Himp)%existsb_exists.
    apply list_elem_of_In, elem_of_seq in Hd.
    unfold improves in Himp. rewrite Hv' in Himp.
    rewrite bool_decide_eq_true_2 in Himp by lia.
    unfold improves in Himp.
    destruct (cand !! d) as [a|]; [|done].
    destruct (v !! d) as [b|]; [|done].
    simpl in Himp. destruct (a <? b) eqn:Eab; lia.
Qed.

(** ** What the returned envelopes hold *)

Lemma broadcast_inv w v out w' q :
  vector_of w = Some v ->
  broadcast w = (Ok out, w') -> q ∈ out ->
  w' = w /\ pkt_costs q = v.
Proof.
  intros Hv H Hq. split; [by eapply broadcast_any|].
  unfold vector_of in Hv.
  destruct (vector (self w)) as [lv|] eqn:Hlv; [|done].
  destruct (neighbors (self w)) as [ns|] eqn:Hns.
  - rewrite (broadcast_ok _ _ _ _ Hns Hlv Hv) in H. simplify_eq.
    by apply list_elem_of_fmap in Hq as (nb & -> & _).
  - unfold broadcast, bind, attr in H. rewrite Hns in H. discriminate H.
Qed.

Lemma update_packets p w v out w' q :
  vector_of w = Some v ->
  update p w = (Ok out, w') -> q ∈ out ->
  vector_of w' = Some (pkt_costs q).
Proof.
  unfold update. intros Hv H Hq.
  apply bind_inv in H as [(cand & w2 & H2 & H)|(e & _ & ?)]; [|done].
  apply new_info_any in H2 as ->.
  apply bind_inv in H as [(ent & w3 & H3 & H)|(e & _ & ?)]; [|done].
  unfold get_self in H3. simplify_eq.
  apply bind_inv in H as [(u & w4 & H4 & H)|(e & _ & ?)]; [|done].
  apply relax_loop_lowers in H4.
  destruct (lowers_vector_of _ _ _ H4 Hv) as (v4 & Hv4 & _).
  destruct u.
  - destruct (broadcast_inv _ _ _ _ _ Hv4 H Hq) as [-> ->]. done.
  - unfold ret in H. simplify_eq. by apply elem_of_nil in Hq.
Qed.

Lemma list_setitem_heap_length p i x w r w' :
  list_setitem p i x w = (r, w') -> length (heap w') = length (heap w).
Proof.
  intros H. unfold_M.
  repeat (case_match; simplify_eq; simpl in * ); try done.
  by rewrite length_insert.
Qed.

Lemma init_vector_loop_heap_length vec nc : forall w r w',
  foldM (fun (_ : unit) link => list_setitem vec (fst link) (snd link))
        tt nc w = (r, w') ->
  length (heap w') = length (heap w).
Proof.
  induction nc as [|link nc IH]; intros w r w' H; simpl in H.
  - unfold ret in H. by simplify_eq.
  - apply bind_inv in H as [([] & w1 & H1 & H)|(e & H1 & _)].
    + apply IH in H. apply list_setitem_heap_length in H1. congruence.
    + by apply list_setitem_heap_length in H1.
Qed.

Lemma init_next_hop_loop_inv vec ns : forall nh acc w r w',
  foldM (fun '(nh, packets) neighbor =>
           nh' <- lift (setitem nh neighbor neighbor) ;;
           packet <- Packet_new neighbor vec ;;
           ret (nh', packets ++ [packet]))
        (nh, acc) ns w = (Ok r, w') ->
  w' = w /\ forall q, q ∈ snd r -> q ∈ acc \/ pkt_costs q = heap w !!! vec.
Proof.
  induction ns as [|nb ns IH]; intros nh acc w r w' H; simpl in H.
  - unfold ret in H. simplify_eq. auto.
  - apply bind_inv in H as [([nh1 acc1] & w1 & H1 & H)|(e & _ & ?)]; [|done].
    apply IH in H as [-> Hr].
    unfold bind, lift, ret, Packet_new, load in H1.
    destruct (setitem nh nb nb); simpl in H1; simplify_eq.
    split; [done|]. intros q Hq.
    destruct (Hr q Hq) as [[Hacc|Hnew]%elem_of_app|Hvec]; auto.
    apply list_elem_of_singleton in Hnew. subst. by right.
Qed.

Lemma initialize_costs_packets nc w out w' q :
  initialize_costs nc w = (Ok out, w') -> q ∈ out ->
  vector_of w' = Some (pkt_costs q).
Proof.
  unfold initialize_costs. intros H Hq.
  apply bind_inv in H as [(? & w1 & H1 & H)|(? & _ & ?)]; [|done].
  apply bind_inv in H as [(ent & w2 & H2 & H)|(? & _ & ?)]; [|done].
  apply bind_inv in H as [(vec & w3 & H3 & H)|(? & _ & ?)]; [|done].
  apply bind_inv in H as [(? & w4 & H4 & H)|(? & _ & ?)]; [|done].
  apply bind_inv in H as [(? & w5 & H5 & H)|(? & _ & ?)]; [|done].
  apply bind_inv in H as [(? & w6 & H6 & H)|(? & _ & ?)]; [|done].
  apply bind_inv in H as [(nh & w7 & H7 & H)|(? & _ & ?)]; [|done].
  apply bind_inv in H as [(ns & w8 & H8 & H)|(? & _ & ?)]; [|done].
  apply bind_inv in H as [(r & w9 & H9 & H)|(? & _ & ?)]; [|done].
  apply init_next_hop_loop_inv in H9 as [-> Hr].
  apply list_setitem_heap_length in H4.
  apply init_vector_loop_heap_length in H5.
  assert (Hvec : (vec < length (heap w5))%nat).
  { rewrite H5, H4. unfold alloc in H3. simplify_eq. simpl.
    rewrite length_app. simpl. lia. }
  clear H1 H2 H3 H4 H5.
  unfold_M. repeat (case_match; simplify_eq; simpl in * ).
  destruct (Hr q Hq) as [Hnil| ->]; [by apply elem_of_nil in Hnil|].
  unfold vector_of. simpl. by apply list_lookup_lookup_total_lt.
Qed.

(** C6. Every envelope returned by [initialize_costs] or by [update]
    carries a snapshot of the entity's vector: the list it carries is the
    entity's vector as it is when the call returns, and it is a value of
    its own, so that whatever envelopes are delivered to the entity
    afterwards, the entity's vector may go down entry by entry while the
    envelope still carries the vector of the moment it was built. *)
Theorem returned_envelopes_are_snapshots w out w' q ps :
  (exists nc, initialize_costs nc w = (Ok out, w')) \/
  (exists p v, vector_of w = Some v /\ update p w = (Ok out, w')) ->
  q ∈ out ->
  vector_of w' = Some (get_costs q) /\
  exists v'',
    vector_of (deliver ps w') = Some v'' /\
    Forall2 Z.le v'' (get_costs q).
Proof.
  intros Hcall Hq. unfold get_costs.
  assert (Hvec : vector_of w' = Some (pkt_costs q)).
  { destruct Hcall as [[nc H]|(p & v & Hv & H)].
    - by eapply initialize_costs_packets.
    - by eapply update_packets. }
  split; [done|].
  exact (lowers_vector_of _ _ _ (deliver_lowers ps w') Hvec).
Qed.

Lemma returned_envelopes_are_snapshots_witness :
  ((exists nc, initialize_costs nc node0 =
                 (Ok [mkPacket 1 [0; 1; 999]], node0_active)) \/
   (exists p v, vector_of node0 = Some v /\
                update p node0 = (Ok [mkPacket 1 [0; 1; 999]], node0_active))) /\
  mkPacket 1 [0; 1; 999] ∈ [mkPacket 1 [0; 1; 999]] /\
  vector_of node0_active = Some (get_costs (mkPacket 1 [0; 1; 999])) /\
  exists v'',
    vector_of (deliver [from_node1] node0_active) = Some v'' /\
    Forall2 Z.le v'' (get_costs (mkPacket 1 [0; 1; 999])).
Proof.
  assert (H1 : (exists nc, initialize_costs nc node0 =
                             (Ok [mkPacket 1 [0; 1; 999]], node0_active)) \/
               (exists p v, vector_of node0 = Some v /\
                  update p node0 = (Ok [mkPacket 1 [0; 1; 999]], node0_active))).
  { left. exists [(1, 1)]. reflexivity. }
  assert (H2 : mkPacket 1 [0; 1; 999] ∈ [mkPacket 1 [0; 1; 999]])
    by apply list_elem_of_here.
  split; [exact H1|]. split; [exact H2|].
  exact (returned_envelopes_are_snapshots node0 [mkPacket 1 [0; 1; 999]]
           node0_active (mkPacket 1 [0; 1; 999]) [from_node1] H1 H2).
Defined.

(** On the small network: the envelope entity 0 returns from
    [initialize_costs] carries [0, 1, 999]; once entity 0 has processed
    the envelope of entity 1 its own vector is [0, 1, 2], and the
    envelope it then returns carries that. *)
Example node0_envelope_is_a_snapshot :
  initialize_costs [(1, 1)] node0 = (Ok [mkPacket 1 [0; 1; 999]], node0_active) /\
  vector_of (deliver [from_node1] node0_active) = Some [0; 1; 2] /\
  fst (update from_node1 node0_active) = Ok [mkPacket 1 [0; 1; 2]].
Proof. repeat split. Qed.

(** * Further properties of the methods *)

Lemma foldM_app {S A} (body : S -> A -> M S) s xs ys w :
  foldM body s (xs ++ ys) w = (s' <- foldM body s xs ;; foldM body s' ys) w.
Proof.
  revert s w. induction xs as [|x xs IH]; intros s w; simpl.
  - reflexivity.
  - unfold bind. destruct (body s x w) as [[s1|e] w1]; [|reflexivity].
    rewrite IH. reflexivity.
Qed.

(** ** [get_all_costs] *)

Lemma foldl_insert_seq_length {B} (f : nat -> B) (xs : list nat) (hc : list B) :
  length (foldl (fun hc i => <[i := f i]> hc) hc xs) = length hc.
Proof.
  revert hc. induction xs as [|i xs IH]; intros hc; simpl; [done|].
  by rewrite IH, length_insert.
Qed.

Lemma foldl_insert_seq {B} (f : nat -> B) k m (hc : list B) d :
  (k + m <= length hc)%nat ->
  foldl (fun hc i => <[i := f i]> hc) hc (seq k m) !! d =
    if bool_decide (k <= d < k + m)%nat then Some (f d) else hc !! d.
Proof.
  induction m as [|m IH]; intros Hlen.
  - simpl. by rewrite bool_decide_eq_false_2 by lia.
  - rewrite seq_S, foldl_app. simpl.
    destruct (decide (d = k + m)%nat) as [->|Hne].
    + rewrite list_lookup_insert_eq by (rewrite foldl_insert_seq_length; lia).
      by rewrite bool_decide_eq_true_2 by lia.
    + rewrite list_lookup_insert_ne by done. rewrite IH by lia.
      by rewrite (bool_decide_ext (k <= d < k + m)%nat (k <= d < k + S m)%nat)
        by lia.
Qed.

Lemma get_all_costs_loop w lv v nh (ixs : list nat) :
  vector (self w) = Some lv -> heap w !! lv = Some v ->
  next_hop (self w) = Some nh ->
  forall hop_cost : list (Z * Z),
  Forall (fun i => i < length nh /\ i < length v /\ i < length hop_cost)%nat ixs ->
  foldM (fun hop_cost i =>
           nh <- attr next_hop ;;
           h <- lift (getitem nh i) ;;
           v <- attr vector ;;
           c <- list_getitem v i ;;
           lift (setitem hop_cost i (h, c)))
        hop_cost (Z.of_nat <$> ixs) w =
    (Ok (foldl (fun hc i => <[i := (nh !!! i, v !!! i)]> hc) hop_cost ixs), w).
Proof.
  intros Hlv Hv Hnh. induction ixs as [|i ixs IH]; intros hc Hin; [done|].
  apply Forall_cons in Hin as [(Hi1 & Hi2 & Hi3) Hin].
  cbn [fmap list_fmap foldM foldl].
  erewrite bind_Ok; [apply IH|].
  - eapply Forall_impl; [exact Hin|]. simpl. intros j.
    by rewrite length_insert.
  - rewrite (bind_Ok _ _ _ _ _ (attr_Some _ _ _ Hnh)).
    erewrite bind_Ok; cycle 1.
    { unfold lift. erewrite getitem_nat; [reflexivity|].
      by apply list_lookup_lookup_total_lt. }
    rewrite (bind_Ok _ _ _ _ _ (attr_Some _ _ _ Hlv)).
    erewrite bind_Ok; cycle 1.
    { eapply list_getitem_nat; [exact Hv|].
      by apply list_lookup_lookup_total_lt. }
    unfold lift. by rewrite setitem_nat.
Qed.

Lemma get_all_costs_zip w lv v nh ns :
  Active w lv v nh ns -> get_all_costs w = (Ok (zip nh v), w).
Proof.
  intros (Hlv & Hv & Hnh & _ & Hl1 & Hl2 & _).
  unfold get_all_costs. erewrite bind_Ok by reflexivity.
  set (n := Z.to_nat (number_of_entities (self w))) in *.
  rewrite range_seq. fold n.
  rewrite (get_all_costs_loop w lv v nh (seq 0 n) Hlv Hv Hnh).
  - f_equal. f_equal. apply list_eq. intros d.
    rewrite foldl_insert_seq by (rewrite length_replicate; lia).
    rewrite lookup_zip_with.
    destruct (decide (d < n)%nat) as [Hd|Hd].
    + rewrite bool_decide_eq_true_2 by lia.
      rewrite (list_lookup_lookup_total_lt nh d),
        (list_lookup_lookup_total_lt v d) by lia. done.
    + rewrite bool_decide_eq_false_2 by lia.
      rewrite (proj1 (lookup_replicate_None _ _ _)) by lia.
      by rewrite (lookup_ge_None_2 nh) by lia.
  - apply Forall_forall. intros i Hi%elem_of_seq.
    rewrite length_replicate. lia.
Qed.

(** X1. On an initialized entity [get_all_costs] returns, without
    changing anything, a list of N pairs whose entry d is
    (nextHop[d], vector[d]). *)
Theorem get_all_costs_snapshot w lv v nh ns :
  Active w lv v nh ns ->
  exists hop_cost,
    get_all_costs w = (Ok hop_cost, w) /\
    length hop_cost = Z.to_nat (number_of_entities (self w)) /\
    forall d, (d < Z.to_nat (number_of_entities (self w)))%nat ->
      exists hop cost,
        nh !! d = Some hop /\ v !! d = Some cost /\
        hop_cost !! d = Some (hop, cost).
Proof.
  intros HA. exists (zip nh v).
  split; [by eapply get_all_costs_zip|].
  destruct HA as (_ & _ & _ & _ & Hl1 & Hl2 & _).
  split; [rewrite length_zip; lia|].
  intros d Hd.
  destruct (lookup_lt_is_Some_2 nh d) as [hop Hhop]; [lia|].
  destruct (lookup_lt_is_Some_2 v d) as [cost Hcost]; [lia|].
  exists hop, cost. split; [done|]. split; [done|].
  by rewrite lookup_zip_with, Hhop, Hcost.
Qed.

Lemma get_all_costs_snapshot_witness :
  Active node0_active 1%nat [0; 1; 999] [0; 1; 0] [1] /\
  exists hop_cost,
    get_all_costs node0_active = (Ok hop_cost, node0_active) /\
    length hop_cost = 3%nat /\
    forall d, (d < 3)%nat ->
      exists hop cost,
        [0; 1; 0] !! d = Some hop /\ [0; 1; 999] !! d = Some cost /\
        hop_cost !! d = Some (hop, cost).
Proof.
  split; [exact node0_active_Active|].
  exact (get_all_costs_snapshot node0_active 1%nat [0; 1; 999] [0; 1; 0] [1]
           node0_active_Active).
Defined.

Lemma get_all_costs_loop_any ixs : forall (hop_cost : list (Z * Z)) w r w',
  foldM (fun hop_cost i =>
           nh <- attr next_hop ;;
           h <- lift (getitem nh i) ;;
           v <- attr vector ;;
           c <- list_getitem v i ;;
           lift (setitem hop_cost i (h, c)))
        hop_cost ixs w = (r, w') -> w' = w.
Proof.
  induction ixs as [|i ixs IH]; intros hc w r w' H; simpl in H.
  - unfold ret in H. by simplify_eq.
  - apply bind_inv in H as [(hc1 & w1 & H1 & H)|(e & H1 & _)].
    + apply IH in H as ->. clear IH.
      unfold_M. by repeat (case_match; simplify_eq; simpl in * ).
    + clear IH. unfold_M. by repeat (case_match; simplify_eq; simpl in * ).
Qed.

(** X2. The two queries never write: whatever the state, also an
    uninitialized or damaged one, and whether they return or raise,
    [get_all_costs] and [forward_next_hop] leave the store and the entity
    exactly as they were. *)
Theorem queries_leave_the_state w d :
  snd (get_all_costs w) = w /\ snd (forward_next_hop d w) = w.
Proof.
  split.
  - destruct (get_all_costs w) as [r w'] eqn:E. simpl.
    unfold get_all_costs in E.
    apply bind_inv in E as [(e & w1 & H1 & H)|(e & H1 & _)];
      unfold get_self in H1; simplify_eq.
    by eapply get_all_costs_loop_any.
  - unfold forward_next_hop. unfold_M.
    by repeat (case_match; simplify_eq; simpl in * ).
Qed.

(** X3. The two queries agree: on an initialized entity, for a
    destination d in [0, N), [forward_next_hop d] returns the first
    component of entry d of [get_all_costs], whose second component is
    vector[d]. *)
Theorem forward_next_hop_agrees_with_get_all_costs w lv v nh ns d :
  Active w lv v nh ns ->
  0 <= d < number_of_entities (self w) ->
  exists hop_cost hop cost,
    get_all_costs w = (Ok hop_cost, w) /\
    hop_cost !! Z.to_nat d = Some (hop, cost) /\
    forward_next_hop d w = (Ok hop, w) /\
    v !! Z.to_nat d = Some cost.
Proof.
  intros HA Hd.
  pose proof (get_all_costs_zip _ _ _ _ _ HA) as Hall.
  destruct HA as (_ & _ & Hnh & _ & Hl1 & Hl2 & _).
  destruct (lookup_lt_is_Some_2 nh (Z.to_nat d)) as [hop Hhop]; [lia|].
  destruct (lookup_lt_is_Some_2 v (Z.to_nat d)) as [cost Hcost]; [lia|].
  exists (zip nh v), hop, cost. split; [done|]. split; [|split; [|done]].
  - by rewrite lookup_zip_with, Hhop, Hcost.
  - unfold forward_next_hop.
    rewrite (bind_Ok _ _ _ _ _ (attr_Some _ _ _ Hnh)).
    unfold lift. rewrite <- (Z2Nat.id d) at 1 by lia.
    by rewrite (getitem_nat _ _ _ Hhop).
Qed.

Lemma forward_next_hop_agrees_with_get_all_costs_witness :
  Active node0_active 1%nat [0; 1; 999] [0; 1; 0] [1] /\
  0 <= 1 < number_of_entities (self node0_active) /\
  exists hop_cost hop cost,
    get_all_costs node0_active = (Ok hop_cost, node0_active) /\
    hop_cost !! Z.to_nat 1 = Some (hop, cost) /\
    forward_next_hop 1 node0_active = (Ok hop, node0_active) /\
    [0; 1; 999] !! Z.to_nat 1 = Some cost.
Proof.
  assert (H : 0 <= 1 < number_of_entities (self node0_active))
    by (change (0 <= 1 < 3); lia).
  split; [exact node0_active_Active|]. split; [exact H|].
  exact (forward_next_hop_agrees_with_get_all_costs node0_active 1%nat
           [0; 1; 999] [0; 1; 0] [1] 1 node0_active_Active H).
Defined.

(** ** Calls out of order and malformed envelopes *)

(** X4. Before [initialize_costs] the other methods fail with
    AttributeError and change nothing: [forward_next_hop] always,
    [get_all_costs] in a network of at least one entity, [update] on any
    envelope that is not empty. *)
Theorem calls_before_initialize_costs idx n h p x costs d :
  0 < n ->
  pkt_costs p = x :: costs ->
  let w := mkWorld h (Entity_init idx n) in
  forward_next_hop d w = (Raise AttributeError, w) /\
  get_all_costs w = (Raise AttributeError, w) /\
  update p w = (Raise AttributeError, w).
Proof.
  intros Hn Hp w. split; [reflexivity|]. split.
  - unfold get_all_costs. erewrite bind_Ok by reflexivity.
    rewrite range_seq. cbn [self Entity_init number_of_entities w].
    destruct (Z.to_nat n) as [|k] eqn:E; [lia|]. reflexivity.
  - unfold update, get_costs. rewrite Hp. reflexivity.
Qed.

Lemma calls_before_initialize_costs_witness :
  0 < 3 /\
  pkt_costs from_node1 = 1 :: [0; 1] /\
  forward_next_hop 2 node0 = (Raise AttributeError, node0) /\
  get_all_costs node0 = (Raise AttributeError, node0) /\
  update from_node1 node0 = (Raise AttributeError, node0).
Proof.
  assert (H1 : 0 < 3) by lia.
  split; [exact H1|]. split; [reflexivity|].
  exact (calls_before_initialize_costs 0 3 [[1; 0; 1]] from_node1 1 [0; 1] 2
           H1 eq_refl).
Defined.

(** X5. An envelope with fewer than N entries makes [update] raise
    IndexError, but only after the entries it does have were processed:
    the destinations below the envelope's length have been relaxed as in a
    normal call, the others are untouched, and no envelope is returned
    for the improvements made. *)
Theorem update_short_envelope w lv v nh ns p s costs :
  Active w lv v nh ns ->
  pkt_source p = s -> s ∈ ns ->
  pkt_costs p = costs ->
  (length costs < Z.to_nat (number_of_entities (self w)))%nat ->
  exists c w' v' nh',
    v !! Z.to_nat s = Some c /\
    update p w = (Raise IndexError, w') /\
    heap w' !! lv = Some v' /\ next_hop (self w') = Some nh' /\
    forall d b, v !! d = Some b ->
      match costs !! d with
      | Some x =>
          if x + c <? b
          then v' !! d = Some (x + c) /\ nh' !! d = Some s
          else v' !! d = Some b /\ nh' !! d = nh !! d
      | None => v' !! d = Some b /\ nh' !! d = nh !! d
      end.
Proof.
  intros HA Hs Hsn Hcosts Hshort.
  destruct (Active_getitem _ _ _ _ _ _ HA Hsn) as (c & Hc & Hgc).
  destruct HA as (Hlv & Hv & Hnh & Hns & Hl1 & Hl2 & _).
  set (n := Z.to_nat (number_of_entities (self w))) in *.
  set (m := length costs) in *.
  set (cand := (fun x => x + c) <$> costs).
  destruct (foldl (relax1 s cand) (v, nh, false) (seq 0 m))
    as [[v' nh'] u'] eqn:E.
  set (w1 := mkWorld (<[lv := v']> (heap w)) (set_next_hop nh' (self w))).
  assert (Hup : update p w = (Raise IndexError, w1)).
  { unfold update, get_costs. rewrite Hcosts.
    rewrite <- (list_lookup_total_correct _ _ _ Hv) in Hgc.
    rewrite (bind_Ok _ _ _ _ _ (new_info_ok _ costs _ _ _ _ Hlv Hs Hgc)).
    erewrite bind_Ok by reflexivity.
    rewrite range_seq. fold n cand.
    replace n with (m + S (n - m - 1))%nat by lia.
    rewrite seq_app, fmap_app. unfold bind at 1.
    rewrite foldM_app. unfold bind at 1.
    rewrite (relax_loop_ok _ _ _ _ _ Hs _ _ _ _ Hlv Hv Hnh); cycle 1.
    { apply Forall_forall. intros i Hi%elem_of_seq.
      unfold cand. rewrite length_fmap. lia. }
    rewrite E. fold w1. simpl.
    unfold bind at 1. unfold relax_entry at 1. unfold bind at 1.
    unfold lift, getitem, py_index, cand.
    rewrite length_fmap. fold m.
    rewrite !decide_False by lia. reflexivity. }
  apply relax_fold_spec in E as (Hl1' & Hl2' & Hv' & Hnh' & _).
  exists c, w1, v', nh'. split; [done|]. split; [done|].
  split; [apply list_lookup_insert_eq; by eapply lookup_lt_Some|].
  split; [done|].
  intros d b Hb. pose proof (lookup_lt_Some _ _ _ Hb) as Hd.
  rewrite Hv', Hnh' by lia. unfold improves, cand.
  rewrite list_lookup_fmap, Hb.
  destruct (costs !! d) as [x|] eqn:Ex; simpl.
  - apply lookup_lt_Some in Ex. fold m in Ex.
    rewrite bool_decide_eq_true_2 by lia. simpl.
    by destruct (x + c <? b).
  - by rewrite andb_false_r.
Qed.

Lemma update_short_envelope_witness :
  let w := mkWorld [[0; 999; 1]]
                   (mkEntity 0 3 (Some [2]) (Some 0%nat) (Some [0; 0; 2])) in
  let p := mkPacket 2 [1; 1] in
  Active w 0%nat [0; 999; 1] [0; 0; 2] [2] /\
  pkt_source p = 2 /\ 2 ∈ [2] /\
  pkt_costs p = [1; 1] /\
  (length [1; 1] < 3)%nat /\
  exists c w' v' nh',
    [0; 999; 1] !! Z.to_nat 2 = Some c /\
    update p w = (Raise IndexError, w') /\
    heap w' !! 0%nat = Some v' /\ next_hop (self w') = Some nh' /\
    forall d b, [0; 999; 1] !! d = Some b ->
      match [1; 1] !! d with
      | Some x =>
          if x + c <? b
          then v' !! d = Some (x + c) /\ nh' !! d = Some 2
          else v' !! d = Some b /\ nh' !! d = [0; 0; 2] !! d
      | None => v' !! d = Some b /\ nh' !! d = [0; 0; 2] !! d
      end.
Proof.
  intros w p.
  assert (HA : Active w 0%nat [0; 999; 1] [0; 0; 2] [2]).
  { unfold Active. repeat split; try reflexivity.
    apply Forall_cons. split; [|constructor]. change (0 <= 2 < 3). lia. }
  assert (H5 : (length [1; 1] < 3)%nat) by (simpl; lia).
  split; [exact HA|]. split; [reflexivity|].
  split; [apply list_elem_of_here|]. split; [reflexivity|].
  split; [exact H5|].
  exact (update_short_envelope w 0%nat [0; 999; 1] [0; 0; 2] [2] p 2
           [1; 1] HA eq_refl (list_elem_of_here _ _) eq_refl H5).
Defined.

(** The run behind it: entity 0 of three, with entity 2 as its one
    neighbour at cost 1, receives from entity 2 an envelope of two
    entries.  Entry 1 is improved from 999 to 2 with next hop 2, and only
    then does the call raise. *)
Example short_envelope_is_half_processed :
  update (mkPacket 2 [1; 1])
         (mkWorld [[0; 999; 1]]
                  (mkEntity 0 3 (Some [2]) (Some 0%nat) (Some [0; 0; 2]))) =
    (Raise IndexError,
     mkWorld [[0; 2; 1]]
             (mkEntity 0 3 (Some [2]) (Some 0%nat) (Some [0; 2; 2]))).
Proof. reflexivity. Qed.

(** X6. A sender identity outside [-N, N) on an envelope that is not
    empty makes [update] raise IndexError before anything is written: the
    state is unchanged. *)
Theorem update_sender_out_of_range w lv v nh ns p s x costs :
  Active w lv v nh ns ->
  pkt_source p = s ->
  s < - number_of_entities (self w) \/ number_of_entities (self w) <= s ->
  pkt_costs p = x :: costs ->
  update p w = (Raise IndexError, w).
Proof.
  intros (Hlv & Hv & _ & _ & Hl1 & _) Hs Hout Hcosts.
  unfold update, get_costs. rewrite Hcosts.
  cbn [mapM]. unfold bind at 1. unfold bind at 1. unfold candidate.
  rewrite (bind_Ok _ _ _ _ _ (attr_Some _ _ _ Hlv)).
  unfold bind at 1. unfold list_getitem.
  rewrite (bind_Ok _ _ _ _ _ (load_Some _ _ _ Hv)).
  unfold lift, getitem, py_index, get_source. rewrite Hs.
  rewrite !decide_False by lia. reflexivity.
Qed.

Lemma update_sender_out_of_range_witness :
  Active node0_active 1%nat [0; 1; 999] [0; 1; 0] [1] /\
  pkt_source (mkPacket 3 [1; 0; 1]) = 3 /\
  (3 < - number_of_entities (self node0_active) \/
   number_of_entities (self node0_active) <= 3) /\
  pkt_costs (mkPacket 3 [1; 0; 1]) = 1 :: [0; 1] /\
  update (mkPacket 3 [1; 0; 1]) node0_active =
    (Raise IndexError, node0_active).
Proof.
  assert (H : 3 < - number_of_entities (self node0_active) \/
              number_of_entities (self node0_active) <= 3).
  { right. change (3 <= 3). lia. }
  split; [exact node0_active_Active|]. split; [reflexivity|].
  split; [exact H|]. split; [reflexivity|].
  exact (update_sender_out_of_range node0_active 1%nat [0; 1; 999] [0; 1; 0]
           [1] (mkPacket 3 [1; 0; 1]) 3 1 [0; 1]
           node0_active_Active eq_refl H eq_refl).
Defined.

(** X7. [update] never looks the sender up in [neighbors]: an envelope
    of length N from any identity in [0, N), neighbour or not, is
    processed normally, and every destination it improves gets that
    identity as its next hop. *)
Theorem update_accepts_any_sender w lv v nh ns p s costs :
  Active w lv v nh ns ->
  pkt_source p = s ->
  0 <= s < number_of_entities (self w) ->
  pkt_costs p = costs ->
  length costs = Z.to_nat (number_of_entities (self w)) ->
  exists c out w' nh',
    v !! Z.to_nat s = Some c /\
    update p w = (Ok out, w') /\
    next_hop (self w') = Some nh' /\
    forall d x b, costs !! d = Some x -> v !! d = Some b -> x + c < b ->
      nh' !! d = Some s.
Proof.
  intros (Hlv & Hv & Hnh & Hns & Hl1 & Hl2 & _) Hs Hsr Hcosts Hlen.
  destruct (lookup_lt_is_Some_2 v (Z.to_nat s)) as [c Hc]; [lia|].
  assert (Hgc : getitem v s = Ok c).
  { rewrite <- (Z2Nat.id s) by lia. by apply getitem_nat. }
  pose proof (update_ok p w s lv v nh ns costs c Hs Hlv Hv Hnh Hns Hcosts Hgc) as Hup.
  simpl in Hup. specialize (Hup ltac:(lia) ltac:(lia) ltac:(lia)).
  destruct (foldl _ _ _) as [[v' nh'] u'] eqn:E.
  apply relax_fold_spec in E as (_ & _ & _ & Hnh' & _).
  eexists c, _, _, nh'. split; [done|]. split; [exact Hup|].
  split; [done|].
  intros d x b Hx Hb Hlt. pose proof (lookup_lt_Some _ _ _ Hb).
  rewrite Hnh' by lia. rewrite bool_decide_eq_true_2 by lia.
  unfold improves. rewrite list_lookup_fmap, Hx, Hb. simpl.
  by replace (x + c <? b) with true by lia.
Qed.

Lemma update_accepts_any_sender_witness :
  let w := mkWorld [[0; 10; 2; 1]]
                   (mkEntity 0 4 (Some [1; 3]) (Some 0%nat) (Some [0; 1; 3; 3])) in
  let p := mkPacket 2 [2; 1; 0; 1] in
  Active w 0%nat [0; 10; 2; 1] [0; 1; 3; 3] [1; 3] /\
  pkt_source p = 2 /\ 0 <= 2 < number_of_entities (self w) /\
  pkt_costs p = [2; 1; 0; 1] /\
  length [2; 1; 0; 1] = Z.to_nat (number_of_entities (self w)) /\
  exists c out w' nh',
    [0; 10; 2; 1] !! Z.to_nat 2 = Some c /\
    update p w = (Ok out, w') /\
    next_hop (self w') = Some nh' /\
    forall d x b, [2; 1; 0; 1] !! d = Some x -> [0; 10; 2; 1] !! d = Some b ->
      x + c < b -> nh' !! d = Some 2.
Proof.
  intros w p.
  assert (HA : Active w 0%nat [0; 10; 2; 1] [0; 1; 3; 3] [1; 3]).
  { unfold Active. repeat split; try reflexivity.
    apply Forall_cons. split; [change (0 <= 1 < 4); lia|].
    apply Forall_cons. split; [change (0 <= 3 < 4); lia|constructor]. }
  assert (H3 : 0 <= 2 < number_of_entities (self w))
    by (change (0 <= 2 < 4); lia).
  split; [exact HA|]. split; [reflexivity|]. split; [exact H3|].
  split; [reflexivity|]. split; [reflexivity|].
  exact (update_accepts_any_sender w 0%nat [0; 10; 2; 1] [0; 1; 3; 3] [1; 3] p 2
           [2; 1; 0; 1] HA eq_refl H3 eq_refl eq_refl).
Defined.

(** The run behind it: entity 0 of four has neighbours 1 (link cost 10)
    and 3, and reaches entity 2 at cost 2 through entity 3.  An envelope
    that names entity 2, which is no neighbour, lowers the cost to
    entity 1 from 10 to 3 and makes entity 2 the next hop for it; the
    change is then announced to the neighbours 1 and 3. *)
Example envelope_of_a_stranger_is_processed :
  update (mkPacket 2 [2; 1; 0; 1])
         (mkWorld [[0; 10; 2; 1]]
                  (mkEntity 0 4 (Some [1; 3]) (Some 0%nat) (Some [0; 1; 3; 3]))) =
    (Ok [mkPacket 1 [0; 3; 2; 1]; mkPacket 3 [0; 3; 2; 1]],
     mkWorld [[0; 3; 2; 1]]
             (mkEntity 0 4 (Some [1; 3]) (Some 0%nat) (Some [0; 2; 3; 3]))).
Proof. reflexivity. Qed.

Lemma relax_fold_ext s cand1 cand2 st (ixs : list nat) :
  Forall (fun i => cand1 !! i = cand2 !! i) ixs ->
  foldl (relax1 s cand1) st ixs = foldl (relax1 s cand2) st ixs.
Proof.
  revert st. induction ixs as [|i ixs IH]; intros st Hall; [done|].
  apply Forall_cons in Hall as [Hi Hall].
  cbn [foldl]. rewrite IH by done. f_equal.
  destruct st as [[v nh] u]. unfold relax1. by rewrite Hi.
Qed.

(** X8. [update] reads only the first N entries of an envelope: two
    envelopes from the same neighbour that agree on their first N entries
    have the same effect and the same result, whatever follows. *)
Theorem update_ignores_entries_beyond_N w lv v nh ns p1 p2 s costs1 costs2 :
  Active w lv v nh ns ->
  pkt_source p1 = s -> pkt_source p2 = s -> s ∈ ns ->
  pkt_costs p1 = costs1 -> pkt_costs p2 = costs2 ->
  (Z.to_nat (number_of_entities (self w)) <= length costs1)%nat ->
  take (Z.to_nat (number_of_entities (self w))) costs1 =
    take (Z.to_nat (number_of_entities (self w))) costs2 ->
  update p1 w = update p2 w.
Proof.
  intros HA Hs1 Hs2 Hsn Hc1 Hc2 Hlen Htake.
  destruct (Active_getitem _ _ _ _ _ _ HA Hsn) as (c & Hc & Hgc).
  destruct HA as (Hlv & Hv & Hnh & Hns & Hl1 & Hl2 & _).
  set (n := Z.to_nat (number_of_entities (self w))) in *.
  assert (Hlen2 : (n <= length costs2)%nat).
  { pose proof (f_equal length Htake) as Hl.
    rewrite !length_take in Hl. lia. }
  pose proof (update_ok p1 w s lv v nh ns costs1 c Hs1 Hlv Hv Hnh Hns Hc1 Hgc) as Hup1.
  pose proof (update_ok p2 w s lv v nh ns costs2 c Hs2 Hlv Hv Hnh Hns Hc2 Hgc) as Hup2.
  cbv zeta in Hup1, Hup2. fold n in Hup1, Hup2.
  rewrite Hup1, Hup2 by lia.
  rewrite (relax_fold_ext s _ ((fun x => x + c) <$> costs2)); [done|].
  apply Forall_forall. intros i Hi%elem_of_seq.
  rewrite !list_lookup_fmap. f_equal.
  rewrite <- (lookup_take_lt costs1 n i), <- (lookup_take_lt costs2 n i) by lia.
  by rewrite Htake.
Qed.

Lemma update_ignores_entries_beyond_N_witness :
  let w := node0_active in
  let p2 := mkPacket 1 [1; 0; 1; 7; 7] in
  Active w 1%nat [0; 1; 999] [0; 1; 0] [1] /\
  pkt_source from_node1 = 1 /\ pkt_source p2 = 1 /\ 1 ∈ [1] /\
  pkt_costs from_node1 = [1; 0; 1] /\
  pkt_costs p2 = [1; 0; 1; 7; 7] /\
  (Z.to_nat (number_of_entities (self w)) <= length [1; 0; 1])%nat /\
  take (Z.to_nat (number_of_entities (self w))) [1; 0; 1] =
    take (Z.to_nat (number_of_entities (self w))) [1; 0; 1; 7; 7] /\
  update from_node1 w = update p2 w.
Proof.
  intros w p2.
  assert (H7 : (Z.to_nat (number_of_entities (self w)) <= length [1; 0; 1])%nat)
    by (change (3 <= 3)%nat; lia).
  split; [exact node0_active_Active|].
  split; [reflexivity|]. split; [reflexivity|].
  split; [apply list_elem_of_here|]. split; [reflexivity|].
  split; [reflexivity|]. split; [exact H7|]. split; [reflexivity|].
  exact (update_ignores_entries_beyond_N w 1%nat [0; 1; 999] [0; 1; 0] [1]
           from_node1 p2 1 [1; 0; 1] [1; 0; 1; 7; 7] node0_active_Active
           eq_refl eq_refl (list_elem_of_here _ _) eq_refl eq_refl H7 eq_refl).
Defined.

(** ** [initialize_costs] on other inputs *)

Lemma bind_Raise {A B} (c : M A) (k : A -> M B) w e w' :
  c w = (Raise e, w') -> bind c k w = (Raise e, w').
Proof. intros H. unfold bind. by rewrite H. Qed.

Lemma list_setitem_index p l i k x w :
  heap w !! p = Some l -> py_index (length l) i = Some k ->
  list_setitem p i x w =
    (Ok tt, mkWorld (<[p := <[k := x]> l]> (heap w)) (self w)).
Proof.
  intros Hp Hk. unfold list_setitem.
  rewrite (bind_Ok _ _ _ _ _ (load_Some _ _ _ Hp)).
  unfold bind, lift, setitem. by rewrite Hk.
Qed.

Lemma list_setitem_raise p l i x w :
  heap w !! p = Some l -> py_index (length l) i = None ->
  list_setitem p i x w = (Raise IndexError, w).
Proof.
  intros Hp Hk. unfold list_setitem.
  rewrite (bind_Ok _ _ _ _ _ (load_Some _ _ _ Hp)).
  unfold bind, lift, setitem. by rewrite Hk.
Qed.

Lemma init_vector_loop_raise lv nc : forall w v,
  heap w !! lv = Some v ->
  Exists (fun link => fst link < - Z.of_nat (length v) \/
                      Z.of_nat (length v) <= fst link) nc ->
  exists w',
    foldM (fun (_ : unit) link => list_setitem lv (fst link) (snd link))
          tt nc w = (Raise IndexError, w') /\
    self w' = self w.
Proof.
  induction nc as [|[i x] nc IH]; intros w v Hv Hbad.
  - by apply Exists_nil in Hbad.
  - cbn [foldM fst snd].
    destruct (py_index (length v) i) as [k|] eqn:Ek.
    + rewrite (bind_Ok _ _ _ _ _ (list_setitem_index _ _ _ _ x _ Hv Ek)).
      apply Exists_cons in Hbad as [Hhead|Htail].
      { exfalso. unfold py_index in Ek. simpl in Hhead.
        repeat case_decide; simplify_eq; lia. }
      destruct (IH (mkWorld (<[lv := <[k := x]> v]> (heap w)) (self w))
                   (<[k := x]> v)) as (w' & Hw' & Hself).
      * apply list_lookup_insert_eq. by eapply lookup_lt_Some.
      * by rewrite length_insert.
      * by exists w'.
    + exists w. split; [|done].
      by rewrite (bind_Raise _ _ _ _ _ (list_setitem_raise _ _ _ x _ Hv Ek)).
Qed.

Lemma initialize_costs_raises_on_bad_link idx n h nc :
  0 <= idx < n ->
  Exists (fun link => fst link < - n \/ n <= fst link) nc ->
  exists w',
    initialize_costs nc (mkWorld h (Entity_init idx n)) = (Raise IndexError, w') /\
    self w' = mkEntity idx n (Some (fst <$> nc)) None None.
Proof.
  intros Hidx Hbad. unfold initialize_costs.
  erewrite bind_Ok by reflexivity.
  erewrite bind_Ok by reflexivity.
  erewrite bind_Ok by reflexivity.
  cbn [self heap set_neighbors index number_of_entities Entity_init].
  erewrite bind_Ok; cycle 1.
  { apply list_setitem_Z with (l := replicate (Z.to_nat n) INFINITY).
    - apply heap_lookup_last.
    - rewrite length_replicate. lia. }
  cbn [self heap]. rewrite heap_insert_last.
  set (w1 := mkWorld _ _).
  destruct (init_vector_loop_raise (length h) nc w1
              (<[Z.to_nat idx := 0]> (replicate (Z.to_nat n) INFINITY)))
    as (w' & Hw' & Hself).
  - apply heap_lookup_last.
  - rewrite length_insert, length_replicate.
    eapply Exists_impl; [exact Hbad|]. simpl. intros; lia.
  - exists w'. rewrite (bind_Raise _ _ _ _ _ Hw').
    split; [done|]. by rewrite Hself.
Qed.

(** X9. When a link names an identity outside [-N, N),
    [initialize_costs] raises IndexError and leaves the entity half
    initialized: [neighbors] is already assigned, with all the listed
    identities, while [vector] and [next_hop] are not, so that a query
    that follows raises AttributeError. *)
Theorem initialize_costs_bad_link idx n h nc d :
  0 <= idx < n ->
  Exists (fun link => fst link < - n \/ n <= fst link) nc ->
  exists w',
    initialize_costs nc (mkWorld h (Entity_init idx n)) = (Raise IndexError, w') /\
    self w' = mkEntity idx n (Some (fst <$> nc)) None None /\
    forward_next_hop d w' = (Raise AttributeError, w').
Proof.
  intros Hidx Hbad.
  destruct (initialize_costs_raises_on_bad_link idx n h nc Hidx Hbad)
    as (w' & Hw' & Hself).
  exists w'. split; [done|]. split; [done|].
  unfold forward_next_hop, bind, attr. by rewrite Hself.
Qed.

Lemma initialize_costs_bad_link_witness :
  0 <= 0 < 3 /\
  Exists (fun link : Z * Z => fst link < - 3 \/ 3 <= fst link) [(1, 1); (3, 4)] /\
  exists w',
    initialize_costs [(1, 1); (3, 4)] (mkWorld [] (Entity_init 0 3)) =
      (Raise IndexError, w') /\
    self w' = mkEntity 0 3 (Some (fst <$> [(1, 1); (3, 4)])) None None /\
    forward_next_hop 1 w' = (Raise AttributeError, w').
Proof.
  assert (H1 : 0 <= 0 < 3) by lia.
  assert (H2 : Exists (fun link : Z * Z => fst link < - 3 \/ 3 <= fst link)
                      [(1, 1); (3, 4)]).
  { apply Exists_cons_tl, Exists_cons_hd. simpl. lia. }
  split; [exact H1|]. split; [exact H2|].
  exact (initialize_costs_bad_link 0 3 [] [(1, 1); (3, 4)] 1 H1 H2).
Defined.

Lemma pkt_source_fmap (v : list Z) (l : list Z) :
  pkt_source <$> ((fun nb => mkPacket nb v) <$> l) = l.
Proof. induction l as [|a l IH]; [done|]. csimpl. by rewrite IH. Qed.

(** X10. [initialize_costs] does not reject a neighbour listed twice:
    the cost listed last is the one left in the vector, and there is one
    envelope per listing, so that neighbour is sent to twice.  (The same
    holds for a listing of the entity itself: its cost replaces the 0.) *)
Theorem initialize_costs_last_listing_wins idx n h l1 nb c l2 :
  0 <= idx < n ->
  Forall (fun link => 0 <= fst link < n) (l1 ++ (nb, c) :: l2) ->
  nb ∉ (fst <$> l2) ->
  exists out w' v,
    initialize_costs (l1 ++ (nb, c) :: l2) (mkWorld h (Entity_init idx n))
      = (Ok out, w') /\
    vector_of w' = Some v /\
    v !! Z.to_nat nb = Some c /\
    pkt_source <$> out = fst <$> (l1 ++ (nb, c) :: l2).
Proof.
  intros Hidx Hnc Hnb.
  rewrite initialize_costs_fresh by done.
  eexists _, _, (init_vector idx n (l1 ++ (nb, c) :: l2)).
  split; [reflexivity|]. split; [|split].
  - unfold vector_of. cbn [self heap vector]. apply heap_lookup_last.
  - apply Forall_app in Hnc as [_ Hnc].
    apply Forall_cons in Hnc as [Hnbr Hl2]. simpl in Hnbr.
    unfold init_vector. rewrite foldl_app. cbn [foldl fst snd].
    rewrite (foldl_insert_notin (fun link => Z.to_nat (fst link)) snd).
    + apply list_lookup_insert_eq.
      rewrite (foldl_insert_length (fun link => Z.to_nat (fst link)) snd).
      rewrite length_insert, length_replicate. lia.
    + intros [nb' c'] Hin Hk. simpl in Hk.
      pose proof (proj1 (Forall_forall _ _) Hl2 _ Hin) as Hr. simpl in Hr.
      apply Hnb. replace nb with nb' by lia.
      by apply (list_elem_of_fmap_2 fst _ (nb', c')).
  - apply pkt_source_fmap.
Qed.

Lemma initialize_costs_last_listing_wins_witness :
  0 <= 0 < 3 /\
  Forall (fun link : Z * Z => 0 <= fst link < 3) ([(1, 5)] ++ (1, 2) :: []) /\
  (1 ∉ (fst <$> @nil (Z * Z))) /\
  exists out w' v,
    initialize_costs ([(1, 5)] ++ (1, 2) :: []) (mkWorld [] (Entity_init 0 3))
      = (Ok out, w') /\
    vector_of w' = Some v /\
    v !! Z.to_nat 1 = Some 2 /\
    pkt_source <$> out = fst <$> ([(1, 5)] ++ (1, 2) :: []).
Proof.
  assert (H1 : 0 <= 0 < 3) by lia.
  assert (H2 : Forall (fun link : Z * Z => 0 <= fst link < 3)
                      ([(1, 5)] ++ (1, 2) :: [])).
  { repeat (apply Forall_cons; split; [simpl; lia|]). constructor. }
  assert (H3 : 1 ∉ (fst <$> @nil (Z * Z))) by apply not_elem_of_nil.
  split; [exact H1|]. split; [exact H2|]. split; [exact H3|].
  exact (initialize_costs_last_listing_wins 0 3 [] [(1, 5)] 1 2 [] H1 H2 H3).
Defined.

(** X11. Calling [initialize_costs] on an entity that is already
    initialized starts over: the entity gets a new vector object holding
    the initial costs only, and a new next-hop table; the old vector
    object stays in the store as it was. *)
Theorem initialize_costs_again_starts_over w lv v nh ns nc :
  Active w lv v nh ns ->
  0 <= index (self w) < number_of_entities (self w) ->
  Forall (fun link => 0 <= fst link < number_of_entities (self w)) nc ->
  exists out w' lv',
    initialize_costs nc w = (Ok out, w') /\
    vector (self w') = Some lv' /\ lv' <> lv /\
    heap w' !! lv = Some v /\
    heap w' !! lv' =
      Some (init_vector (index (self w)) (number_of_entities (self w)) nc) /\
    next_hop (self w') =
      Some (init_next_hop (index (self w)) (number_of_entities (self w))
                          (fst <$> nc)).
Proof.
  intros (_ & Hv & _) Hidx Hnc.
  pose proof (initialize_costs_ok nc w) as Hok. cbv zeta in Hok.
  rewrite Hok by done.
  pose proof (lookup_lt_Some _ _ _ Hv) as Hlt.
  eexists _, _, (length (heap w)). split; [reflexivity|].
  split; [reflexivity|]. split; [lia|]. cbn [heap self next_hop].
  split; [by apply lookup_app_l_Some|]. split; [apply heap_lookup_last|done].
Qed.

Lemma initialize_costs_again_starts_over_witness :
  let w := snd (update from_node1 node0_active) in
  Active w 1%nat [0; 1; 2] [0; 1; 1] [1] /\
  0 <= index (self w) < number_of_entities (self w) /\
  Forall (fun link : Z * Z => 0 <= fst link < number_of_entities (self w))
         [(1, 1)] /\
  exists out w' lv',
    initialize_costs [(1, 1)] w = (Ok out, w') /\
    vector (self w') = Some lv' /\ lv' <> 1%nat /\
    heap w' !! 1%nat = Some [0; 1; 2] /\
    heap w' !! lv' =
      Some (init_vector (index (self w)) (number_of_entities (self w)) [(1, 1)]) /\
    next_hop (self w') =
      Some (init_next_hop (index (self w)) (number_of_entities (self w))
                          (fst <$> [(1, 1)])).
Proof.
  intros w.
  assert (HA : Active w 1%nat [0; 1; 2] [0; 1; 1] [1]).
  { unfold Active. repeat split; try reflexivity.
    apply Forall_cons. split; [|constructor]. change (0 <= 1 < 3). lia. }
  assert (H2 : 0 <= index (self w) < number_of_entities (self w))
    by (change (0 <= 0 < 3); lia).
  assert (H3 : Forall (fun link : Z * Z =>
                         0 <= fst link < number_of_entities (self w)) [(1, 1)]).
  { apply Forall_cons. split; [|constructor]. change (0 <= 1 < 3). lia. }
  split; [exact HA|]. split; [exact H2|]. split; [exact H3|].
  exact (initialize_costs_again_starts_over w 1%nat [0; 1; 2] [0; 1; 1] [1]
           [(1, 1)] HA H2 H3).
Defined.

Lemma py_index_Some len i :
  - Z.of_nat len <= i < Z.of_nat len ->
  exists k, py_index len i = Some k /\ (k < len)%nat.
Proof.
  intros Hi. unfold py_index. repeat case_decide; try lia.
  - exists (Z.to_nat i). split; [done|lia].
  - exists (Z.to_nat (Z.of_nat len + i)). split; [done|lia].
Qed.

Lemma init_vector_loop_wrap lv nc : forall w v,
  heap w !! lv = Some v ->
  Forall (fun link => - Z.of_nat (length v) <= fst link < Z.of_nat (length v)) nc ->
  exists v',
    foldM (fun (_ : unit) link => list_setitem lv (fst link) (snd link)) tt nc w =
      (Ok tt, mkWorld (<[lv := v']> (heap w)) (self w)) /\
    length v' = length v.
Proof.
  induction nc as [|[i x] nc IH]; intros w v Hv Hin.
  - exists v. split; [|done]. cbn [foldM]. unfold ret.
    rewrite list_insert_id by done. by destruct w.
  - apply Forall_cons in Hin as [Hi Hin]. simpl in Hi.
    destruct (py_index_Some _ _ Hi) as (k & Hk & Hlt).
    cbn [foldM fst snd].
    rewrite (bind_Ok _ _ _ _ _ (list_setitem_index _ _ _ _ x _ Hv Hk)).
    destruct (IH (mkWorld (<[lv := <[k := x]> v]> (heap w)) (self w))
                 (<[k := x]> v)) as (v' & Hv' & Hlen).
    + apply list_lookup_insert_eq. by eapply lookup_lt_Some.
    + by rewrite length_insert.
    + exists v'. rewrite Hv'. cbn [heap self].
      rewrite list_insert_insert_eq. split; [done|].
      by rewrite Hlen, length_insert.
Qed.

Lemma init_next_hop_loop_wrap lv ns : forall w (nh : list Z) acc,
  Forall (fun nb => - Z.of_nat (length nh) <= nb < Z.of_nat (length nh)) ns ->
  exists nh',
    foldM (fun '(nh, packets) neighbor =>
             nh' <- lift (setitem nh neighbor neighbor) ;;
             packet <- Packet_new neighbor lv ;;
             ret (nh', packets ++ [packet]))
          (nh, acc) ns w =
      (Ok (nh', acc ++ ((fun nb => mkPacket nb (heap w !!! lv)) <$> ns)), w) /\
    length nh' = length nh.
Proof.
  induction ns as [|nb ns IH]; intros w nh acc Hin.
  - exists nh. split; [|done]. cbn [foldM]. unfold ret. by rewrite app_nil_r.
  - apply Forall_cons in Hin as [Hnb Hin].
    destruct (py_index_Some _ _ Hnb) as (k & Hk & Hlt).
    destruct (IH w (<[k := nb]> nh) (acc ++ [mkPacket nb (heap w !!! lv)]))
      as (nh' & Hnh' & Hlen); [by rewrite length_insert|].
    exists nh'. split; [|by rewrite Hlen, length_insert].
    cbn [foldM].
    erewrite bind_Ok; cycle 1.
    { unfold bind, lift, setitem, ret, Packet_new, load. rewrite Hk.
      reflexivity. }
    rewrite Hnh'. by rewrite <- app_assoc.
Qed.

(** X18. For an entity whose own identity is in [0, N),
    [initialize_costs] returns normally exactly when every listed
    identity lies in [-N, N), and then with one envelope per listing;
    otherwise it raises IndexError.  Identities in [-N, 0) are not
    rejected. *)
Theorem initialize_costs_returns_iff idx n h nc :
  0 <= idx < n ->
  (Forall (fun link => - n <= fst link < n) nc ->
   exists out w',
     initialize_costs nc (mkWorld h (Entity_init idx n)) = (Ok out, w') /\
     pkt_source <$> out = fst <$> nc) /\
  (~ Forall (fun link => - n <= fst link < n) nc ->
   exists w',
     initialize_costs nc (mkWorld h (Entity_init idx n)) = (Raise IndexError, w')).
Proof.
  intros Hidx. split.
  - intros Hnc. unfold initialize_costs.
    erewrite bind_Ok by reflexivity.
    erewrite bind_Ok by reflexivity.
    erewrite bind_Ok by reflexivity.
    cbn [self heap set_neighbors index number_of_entities Entity_init].
    erewrite bind_Ok; cycle 1.
    { apply list_setitem_Z with (l := replicate (Z.to_nat n) INFINITY).
      - apply heap_lookup_last.
      - rewrite length_replicate. lia. }
    cbn [self heap]. rewrite heap_insert_last.
    set (w1 := mkWorld _ _).
    destruct (init_vector_loop_wrap (length h) nc w1
                (<[Z.to_nat idx := 0]> (replicate (Z.to_nat n) INFINITY)))
      as (v' & Hv' & _).
    { apply heap_lookup_last. }
    { rewrite length_insert, length_replicate.
      eapply Forall_impl; [exact Hnc|]. simpl. intros; lia. }
    rewrite (bind_Ok _ _ _ _ _ Hv').
    erewrite bind_Ok by reflexivity.
    erewrite bind_Ok; cycle 1.
    { unfold lift. rewrite setitem_Z; [reflexivity|].
      rewrite length_replicate. lia. }
    erewrite bind_Ok by reflexivity.
    match goal with
    | |- context [bind (foldM _ (?nh0, []) ?ns) _ ?w2] =>
        destruct (init_next_hop_loop_wrap (length h) ns w2 nh0 [])
          as (nh' & Hnh' & _)
    end.
    { rewrite length_insert, length_replicate.
      apply Forall_fmap. eapply Forall_impl; [exact Hnc|]. simpl. intros; lia. }
    rewrite (bind_Ok _ _ _ _ _ Hnh').
    eexists _, _. split; [reflexivity|].
    cbn [snd app]. apply pkt_source_fmap.
  - intros Hbad. apply not_Forall_Exists in Hbad; [|intros link; apply _].
    destruct (initialize_costs_raises_on_bad_link idx n h nc Hidx)
      as (w' & Hw' & _).
    + eapply Exists_impl; [exact Hbad|]. simpl. intros; lia.
    + by exists w'.
Qed.

Lemma initialize_costs_returns_iff_witness :
  0 <= 0 < 3 /\
  Forall (fun link : Z * Z => - 3 <= fst link < 3) [(-1, 4)] /\
  (exists out w',
     initialize_costs [(-1, 4)] (mkWorld [] (Entity_init 0 3)) = (Ok out, w') /\
     pkt_source <$> out = fst <$> [(-1, 4)]) /\
  ~ Forall (fun link : Z * Z => - 3 <= fst link < 3) [(3, 4)] /\
  (exists w',
     initialize_costs [(3, 4)] (mkWorld [] (Entity_init 0 3)) =
       (Raise IndexError, w')).
Proof.
  assert (H1 : 0 <= 0 < 3) by lia.
  assert (H2 : Forall (fun link : Z * Z => - 3 <= fst link < 3) [(-1, 4)]).
  { apply Forall_cons. split; [simpl; lia|constructor]. }
  assert (H3 : ~ Forall (fun link : Z * Z => - 3 <= fst link < 3) [(3, 4)]).
  { intros H. apply Forall_cons in H as [H _]. simpl in H. lia. }
  split; [exact H1|]. split; [exact H2|].
  split; [exact (proj1 (initialize_costs_returns_iff 0 3 [] [(-1, 4)] H1) H2)|].
  split; [exact H3|].
  exact (proj2 (initialize_costs_returns_iff 0 3 [] [(3, 4)] H1) H3).
Defined.

(** ** What [update] keeps *)

(** X12. A call of [update], returning or raising, never changes the
    identity of the entity, the number of entities, the neighbours, or
    which list object is the vector; it allocates nothing; and the only
    list in the store it can write to is the entity's own vector. *)
Theorem update_writes_only_its_vector p w :
  let w' := snd (update p w) in
  index (self w') = index (self w) /\
  number_of_entities (self w') = number_of_entities (self w) /\
  neighbors (self w') = neighbors (self w) /\
  vector (self w') = vector (self w) /\
  length (heap w') = length (heap w) /\
  forall l, vector (self w) <> Some l -> heap w' !! l = heap w !! l.
Proof.
  destruct (update p w) as [r w'] eqn:E. cbn [snd]. cbv zeta.
  apply update_lowers in E as (Hi & Hn & Hns & Hv & Hlen & Hh).
  repeat split; try done.
  intros l Hl. destruct (Hh l) as [_ Heq]. specialize (Heq Hl).
  destruct (decide (l < length (heap w))%nat) as [Hlt|Hge].
  - unfold loc in *.
    rewrite (list_lookup_lookup_total_lt (heap w') l) by lia.
    rewrite (list_lookup_lookup_total_lt (heap w) l) by lia.
    by rewrite Heq.
  - by rewrite !lookup_ge_None_2 by lia.
Qed.

Lemma relax_entry_next_hop P len p cand u i w r w' :
  P (pkt_source p) ->
  next_hop_all P len w ->
  relax_entry p cand u i w = (r, w') -> next_hop_all P len w'.
Proof.
  intros Hsrc (nh & Hnh & Hlen & HP).
  unfold relax_entry, next_hop_all. unfold_M. intros H.
  repeat (case_match; simplify_eq; simpl in * ); eauto.
  match goal with
  | Hs : setitem nh _ _ = Ok _ |- _ =>
      apply setitem_Ok in Hs as (k & _ & ->)
  end.
  eexists. split; [done|]. rewrite length_insert. split; [done|].
  by apply Forall_insert.
Qed.

Lemma relax_loop_next_hop P len p cand xs : forall u w r w',
  P (pkt_source p) ->
  next_hop_all P len w ->
  foldM (relax_entry p cand) u xs w = (r, w') -> next_hop_all P len w'.
Proof.
  induction xs as [|x xs IH]; intros u w r w' Hsrc Hw H; simpl in H.
  - unfold ret in H. by simplify_eq.
  - apply bind_inv in H as [(u1 & w1 & H1 & H)|(e & H1 & _)].
    + eapply IH; [done| |done]. by eapply relax_entry_next_hop.
    + by eapply relax_entry_next_hop.
Qed.

Lemma update_next_hop P len p w r w' :
  P (pkt_source p) ->
  next_hop_all P len w ->
  update p w = (r, w') -> next_hop_all P len w'.
Proof.
  intros Hsrc Hw. unfold update. intros H.
  apply bind_inv in H as [(cand & w2 & H2 & H)|(e & H2 & _)];
    apply new_info_any in H2 as ->; [|done].
  apply bind_inv in H as [(ent & w3 & H3 & H)|(e & H3 & _)];
    unfold get_self in H3; simplify_eq.
  apply bind_inv in H as [(u & w4 & H4 & H)|(e & H4 & _)];
    apply relax_loop_next_hop with (P := P) (len := len) in H4; try done.
  destruct u.
  - by apply broadcast_any in H as ->.
  - unfold ret in H. by simplify_eq.
Qed.

Lemma deliver_next_hop P len ps : forall w,
  Forall (fun p => P (pkt_source p)) ps ->
  next_hop_all P len w -> next_hop_all P len (deliver ps w).
Proof.
  induction ps as [|p ps IH]; intros w Hps Hw; simpl; [done|].
  apply Forall_cons in Hps as [Hp Hps].
  apply IH; [done|].
  destruct (update p w) as [r w'] eqn:E. simpl.
  by eapply update_next_hop.
Qed.

(** X13. After [initialize_costs] and any deliveries whose senders are
    listed neighbours, returning or raising, the next-hop table still has
    N entries and each of them is the entity itself, the default 0, or a
    neighbour. *)
Theorem next_hop_is_self_default_or_neighbour idx n h nc ps :
  0 <= idx < n ->
  Forall (fun link => 0 <= fst link < n) nc ->
  Forall (fun p => pkt_source p ∈ (fst <$> nc)) ps ->
  exists nh,
    next_hop (self (deliver ps
       (snd (initialize_costs nc (mkWorld h (Entity_init idx n)))))) = Some nh /\
    length nh = Z.to_nat n /\
    Forall (fun x => x = idx \/ x = 0 \/ x ∈ (fst <$> nc)) nh.
Proof.
  intros Hidx Hnc Hps.
  rewrite initialize_costs_fresh by done. cbn [snd].
  set (P := fun x => x = idx \/ x = 0 \/ x ∈ (fst <$> nc)).
  apply (deliver_next_hop P (Z.to_nat n)).
  - eapply Forall_impl; [exact Hps|]. simpl. intros p Hp.
    right. by right.
  - eexists. split; [reflexivity|]. split; [apply init_next_hop_length|].
    unfold init_next_hop.
    apply (foldl_insert_Forall Z.to_nat (fun nb => nb) P).
    + apply Forall_insert; [|by left].
      apply Forall_replicate. right. by left.
    + apply Forall_forall. intros nb Hin. right. by right.
Qed.

Lemma next_hop_is_self_default_or_neighbour_witness :
  0 <= 0 < 3 /\
  Forall (fun link : Z * Z => 0 <= fst link < 3) [(1, 1)] /\
  Forall (fun p => pkt_source p ∈ (fst <$> [(1, 1)])) [from_node1] /\
  exists nh,
    next_hop (self (deliver [from_node1] node0_active)) = Some nh /\
    length nh = Z.to_nat 3 /\
    Forall (fun x => x = 0 \/ x = 0 \/ x ∈ (fst <$> [(1, 1)])) nh.
Proof.
  assert (H1 : 0 <= 0 < 3) by lia.
  assert (H2 : Forall (fun link : Z * Z => 0 <= fst link < 3) [(1, 1)]).
  { apply Forall_cons. split; [simpl; lia|constructor]. }
  assert (H3 : Forall (fun p => pkt_source p ∈ (fst <$> [(1, 1)])) [from_node1]).
  { apply Forall_cons. split; [|constructor]. apply list_elem_of_here. }
  split; [exact H1|]. split; [exact H2|]. split; [exact H3|].
  exact (next_hop_is_self_default_or_neighbour 0 3 [[1; 0; 1]] [(1, 1)]
           [from_node1] H1 H2 H3).
Defined.

Lemma relax_entry_vector_all P p cand u i w r w' :
  Forall P cand -> vector_all P w ->
  relax_entry p cand u i w = (r, w') -> vector_all P w'.
Proof.
  intros Hcand (lv & v & Hlv & Hv & HP).
  intros [->|(lv' & k & a & b & Hlv' & Hk & Ha & Hb & Hab & Hh & _ & _ & _ & Hvec)]
    %relax_entry_any; [by exists lv, v|].
  assert (lv' = lv) by congruence; subst lv'.
  assert (Hvt : heap w !!! lv = v) by (by apply list_lookup_total_correct).
  rewrite Hvt in Hh.
  exists lv, (<[k := a]> v). rewrite Hh. split; [congruence|]. split.
  - apply list_lookup_insert_eq. by eapply lookup_lt_Some.
  - apply Forall_insert; [done|].
    apply getitem_elem_of in Ha. by eapply (proj1 (Forall_forall _ _) Hcand).
Qed.

Lemma relax_loop_vector_all P p cand xs : forall u w r w',
  Forall P cand -> vector_all P w ->
  foldM (relax_entry p cand) u xs w = (r, w') -> vector_all P w'.
Proof.
  induction xs as [|x xs IH]; intros u w r w' Hcand Hw H; simpl in H.
  - unfold ret in H. by simplify_eq.
  - apply bind_inv in H as [(u1 & w1 & H1 & H)|(e & H1 & _)].
    + eapply IH; [done| |done]. by eapply relax_entry_vector_all.
    + by eapply relax_entry_vector_all.
Qed.

Lemma update_nonneg p w r w' :
  vector_all (Z.le 0) w -> Forall (Z.le 0) (pkt_costs p) ->
  update p w = (r, w') -> vector_all (Z.le 0) w'.
Proof.
  intros Hw Hcosts. unfold update, get_costs. intros H.
  apply bind_inv in H as [(cand & w2 & H2 & H)|(e & H2 & _)];
    [|by apply new_info_any in H2 as ->].
  pose proof (new_info_any _ _ _ _ _ H2) as ->.
  assert (Forall (Z.le 0) cand) as Hcand.
  { apply new_info_inv in H2 as [[_ ->]|(lv & c & Hlv & Hc & ->)];
      [constructor|].
    destruct Hw as (lv' & v & Hlv' & Hv & Hpos).
    assert (lv' = lv) by congruence; subst lv'.
    rewrite (list_lookup_total_correct _ _ _ Hv) in Hc.
    apply getitem_elem_of in Hc.
    pose proof (proj1 (Forall_forall _ _) Hpos _ Hc).
    apply Forall_fmap. eapply Forall_impl; [exact Hcosts|].
    simpl. intros; lia. }
  apply bind_inv in H as [(ent & w3 & H3 & H)|(e & H3 & _)];
    unfold get_self in H3; simplify_eq.
  apply bind_inv in H as [(u & w4 & H4 & H)|(e & H4 & _)];
    apply relax_loop_vector_all with (P := Z.le 0) in H4; try done.
  destruct u.
  - by apply broadcast_any in H as ->.
  - unfold ret in H. by simplify_eq.
Qed.

Lemma deliver_nonneg ps : forall w,
  vector_all (Z.le 0) w ->
  Forall (fun p => Forall (Z.le 0) (pkt_costs p)) ps ->
  vector_all (Z.le 0) (deliver ps w).
Proof.
  induction ps as [|p ps IH]; intros w Hw Hps; simpl; [done|].
  apply Forall_cons in Hps as [Hp Hps].
  destruct (update p w) as [r w'] eqn:E. simpl.
  apply IH; [|done]. by eapply update_nonneg.
Qed.

(** X14. After [initialize_costs] with link costs between 0 and 999,
    and after any deliveries of envelopes that carry non-negative costs,
    returning or raising, every entry of the vector is between 0 and
    999. *)
Theorem costs_stay_between_0_and_INFINITY idx n h nc ps :
  0 <= idx < n ->
  Forall (fun link => 0 <= fst link < n /\ 0 <= snd link <= INFINITY) nc ->
  Forall (fun p => Forall (Z.le 0) (pkt_costs p)) ps ->
  exists v,
    vector_of (deliver ps (snd (initialize_costs nc (mkWorld h (Entity_init idx n)))))
      = Some v /\
    Forall (fun x => 0 <= x <= INFINITY) v.
Proof.
  intros Hidx Hnc Hps.
  rewrite initialize_costs_fresh;
    [|done|eapply Forall_impl; [exact Hnc|]; simpl; tauto].
  cbn [snd]. set (w1 := mkWorld _ _).
  assert (Hv1 : vector_of w1 = Some (init_vector idx n nc)).
  { unfold vector_of, w1. cbn [self heap vector]. apply heap_lookup_last. }
  assert (Hpos1 : vector_all (Z.le 0) w1).
  { exists (length h), (init_vector idx n nc). repeat split.
    - apply heap_lookup_last.
    - apply init_vector_Forall; [done|done|].
      eapply Forall_impl; [exact Hnc|]. simpl. intros; lia. }
  assert (Hinit : Forall (fun x => x <= INFINITY) (init_vector idx n nc)).
  { apply init_vector_Forall; [done|done|].
    eapply Forall_impl; [exact Hnc|]. simpl. intros; lia. }
  destruct (lowers_vector_of _ _ _ (deliver_lowers ps w1) Hv1) as (v & Hv & Hle).
  destruct (deliver_nonneg ps w1 Hpos1 Hps) as (lv & v' & Hlv & Hv' & Hpos).
  assert (v' = v) as ->
    by (unfold vector_of in Hv; rewrite Hlv in Hv; congruence).
  exists v. split; [done|].
  apply Forall_lookup. intros d x Hx.
  destruct (Forall2_lookup_l _ _ _ _ _ Hle Hx) as (y & Hy & Hxy).
  pose proof (Forall_lookup_1 _ _ _ _ Hinit Hy).
  pose proof (Forall_lookup_1 _ _ _ _ Hpos Hx). simpl in *. lia.
Qed.

Lemma costs_stay_between_0_and_INFINITY_witness :
  0 <= 0 < 3 /\
  Forall (fun link : Z * Z => 0 <= fst link < 3 /\ 0 <= snd link <= INFINITY)
         [(1, 1)] /\
  Forall (fun p => Forall (Z.le 0) (pkt_costs p)) [from_node1] /\
  exists v,
    vector_of (deliver [from_node1]
                 (snd (initialize_costs [(1, 1)] (mkWorld [[1; 0; 1]] (Entity_init 0 3)))))
      = Some v /\
    Forall (fun x => 0 <= x <= INFINITY) v.
Proof.
  assert (H1 : 0 <= 0 < 3) by lia.
  assert (H2 : Forall (fun link : Z * Z =>
                         0 <= fst link < 3 /\ 0 <= snd link <= INFINITY) [(1, 1)]).
  { apply Forall_cons. split; [|constructor]. unfold INFINITY. simpl. lia. }
  assert (H3 : Forall (fun p => Forall (Z.le 0) (pkt_costs p)) [from_node1]).
  { apply Forall_cons. split; [|constructor].
    change (Forall (Z.le 0) [1; 0; 1]).
    repeat (apply Forall_cons; split; [lia|]). constructor. }
  split; [exact H1|]. split; [exact H2|]. split; [exact H3|].
  exact (costs_stay_between_0_and_INFINITY 0 3 [[1; 0; 1]] [(1, 1)]
           [from_node1] H1 H2 H3).
Defined.

(** X15. The recorded cost to a neighbour never exceeds the cost of the
    direct link: after [initialize_costs] on links without duplicates and
    any deliveries, returning or raising, vector[neighbor] is at most the
    listed cost. *)
Theorem cost_to_neighbour_at_most_link_cost idx n h nc ps nb c :
  0 <= idx < n ->
  Forall (fun link => 0 <= fst link < n) nc ->
  NoDup (fst <$> nc) ->
  (nb, c) ∈ nc ->
  exists v x,
    vector_of (deliver ps
      (snd (initialize_costs nc (mkWorld h (Entity_init idx n))))) = Some v /\
    v !! Z.to_nat nb = Some x /\ x <= c.
Proof.
  intros Hidx Hnc Hnd Hin.
  rewrite initialize_costs_fresh by done. cbn [snd].
  set (w1 := mkWorld _ _).
  assert (Hv1 : vector_of w1 = Some (init_vector idx n nc)).
  { unfold vector_of, w1. cbn [self heap vector]. apply heap_lookup_last. }
  destruct (lowers_vector_of _ _ _ (deliver_lowers ps w1) Hv1) as (v & Hv & Hle).
  pose proof (init_vector_neighbor idx n nc nb c Hnc Hnd Hin) as Hc.
  destruct (Forall2_lookup_r _ _ _ _ _ Hle Hc) as (x & Hx & Hxc).
  by exists v, x.
Qed.

Lemma cost_to_neighbour_at_most_link_cost_witness :
  0 <= 0 < 3 /\
  Forall (fun link : Z * Z => 0 <= fst link < 3) [(1, 1)] /\
  NoDup (fst <$> [(1, 1)]) /\
  (1, 1) ∈ [(1, 1)] /\
  exists v x,
    vector_of (deliver [from_node1] node0_active) = Some v /\
    v !! Z.to_nat 1 = Some x /\ x <= 1.
Proof.
  assert (H1 : 0 <= 0 < 3) by lia.
  assert (H2 : Forall (fun link : Z * Z => 0 <= fst link < 3) [(1, 1)]).
  { apply Forall_cons. split; [simpl; lia|constructor]. }
  assert (H3 : NoDup (fst <$> [(1, 1)])).
  { apply NoDup_cons. split; [apply not_elem_of_nil|apply NoDup_nil_2]. }
  assert (H4 : (1, 1) ∈ [(1, 1)]) by apply list_elem_of_here.
  split; [exact H1|]. split; [exact H2|]. split; [exact H3|].
  split; [exact H4|].
  exact (cost_to_neighbour_at_most_link_cost 0 3 [[1; 0; 1]] [(1, 1)]
           [from_node1] 1 1 H1 H2 H3 H4).
Defined.

(** X16. No split horizon: when an envelope from a neighbour improves
    some entry, the envelopes [update] returns include one built for
    that very neighbour, carrying the entity's updated vector. *)
Theorem update_answers_the_sender w lv v nh ns p s costs c d x b :
  Active w lv v nh ns ->
  pkt_source p = s -> s ∈ ns ->
  pkt_costs p = costs ->
  length costs = Z.to_nat (number_of_entities (self w)) ->
  v !! Z.to_nat s = Some c ->
  costs !! d = Some x -> v !! d = Some b -> x + c < b ->
  exists out w' v',
    update p w = (Ok out, w') /\
    vector_of w' = Some v' /\
    mkPacket s v' ∈ out.
Proof.
  intros HA Hs Hsn Hcosts Hlen Hc Hx Hb Hlt.
  destruct (Active_getitem _ _ _ _ _ _ HA Hsn) as (c' & Hc' & Hgc).
  assert (c' = c) by congruence; subst c'.
  destruct HA as (Hlv & Hv & Hnh & Hns & Hl1 & Hl2 & _).
  pose proof (update_ok p w s lv v nh ns costs c Hs Hlv Hv Hnh Hns Hcosts Hgc) as Hup.
  simpl in Hup. specialize (Hup ltac:(lia) ltac:(lia) ltac:(lia)).
  destruct (foldl _ _ _) as [[v' nh'] u'] eqn:E.
  apply relax_fold_spec in E as (_ & _ & _ & _ & ->).
  assert (Hex : existsb (improves ((fun x => x + c) <$> costs) v)
                  (seq 0 (Z.to_nat (number_of_entities (self w)))) = true).
  { apply existsb_exists. exists d. split.
    - apply list_elem_of_In, elem_of_seq. apply lookup_lt_Some in Hx. lia.
    - unfold improves. rewrite list_lookup_fmap, Hx, Hb. simpl. lia. }
  rewrite Hex in Hup. simpl in Hup.
  eexists _, _, v'. split; [exact Hup|]. split.
  - unfold vector_of. cbn [self heap set_next_hop vector]. rewrite Hlv.
    apply list_lookup_insert_eq. by eapply lookup_lt_Some.
  - by apply (list_elem_of_fmap_2 (fun nb => mkPacket nb v')).
Qed.

Lemma update_answers_the_sender_witness :
  Active node0_active 1%nat [0; 1; 999] [0; 1; 0] [1] /\
  pkt_source from_node1 = 1 /\ 1 ∈ [1] /\
  pkt_costs from_node1 = [1; 0; 1] /\
  length [1; 0; 1] = Z.to_nat (number_of_entities (self node0_active)) /\
  [0; 1; 999] !! Z.to_nat 1 = Some 1 /\
  [1; 0; 1] !! 2%nat = Some 1 /\ [0; 1; 999] !! 2%nat = Some 999 /\
  1 + 1 < 999 /\
  exists out w' v',
    update from_node1 node0_active = (Ok out, w') /\
    vector_of w' = Some v' /\
    mkPacket 1 v' ∈ out.
Proof.
  assert (H : 1 + 1 < 999) by lia.
  split; [exact node0_active_Active|]. split; [reflexivity|].
  split; [apply list_elem_of_here|]. do 5 (split; [reflexivity|]).
  split; [exact H|].
  exact (update_answers_the_sender node0_active 1%nat [0; 1; 999] [0; 1; 0]
           [1] from_node1 1 [1; 0; 1] 1 2%nat 1 999 node0_active_Active
           eq_refl (list_elem_of_here _ _) eq_refl eq_refl eq_refl eq_refl
           eq_refl H).
Defined.

Lemma update_absorbed_witness :
  Active node0_active 1%nat [0; 1; 999] [0; 1; 0] [1] /\
  pkt_source from_node1 = 1 /\ 1 ∈ [1] /\
  pkt_costs from_node1 = [1; 0; 1] /\
  length [1; 0; 1] = Z.to_nat (number_of_entities (self node0_active)) /\
  [1; 0; 1] !! Z.to_nat 1 = Some 0 /\ 0 <= 0 /\
  update from_node1 (snd (update from_node1 node0_active)) =
    (Ok [], snd (update from_node1 node0_active)).
Proof.
  assert (H7 : 0 <= 0) by lia.
  split; [exact node0_active_Active|]. split; [reflexivity|].
  split; [apply list_elem_of_here|]. split; [reflexivity|].
  split; [reflexivity|]. split; [reflexivity|]. split; [exact H7|].
  exact (update_absorbed node0_active 1%nat [0; 1; 999] [0; 1; 0] [1]
           from_node1 1 [1; 0; 1] 0 node0_active_Active eq_refl
           (list_elem_of_here _ _) eq_refl eq_refl eq_refl H7).
Defined.

(** * The scenario of the specification, run

    Three entities in a line with unit costs: entity 0 after
    initialization, and after the vector of entity 1 has reached it. *)

Example node0_after_initialize_costs :
  initialize_costs [(1, 1)] node0 =
    (Ok [mkPacket 1 [0; 1; 999]],
     mkWorld [[1; 0; 1]; [0; 1; 999]]
             (mkEntity 0 3 (Some [1]) (Some 1%nat) (Some [0; 1; 0]))).
Proof. reflexivity. Qed.

Example node0_after_update :
  update from_node1 node0_active =
    (Ok [mkPacket 1 [0; 1; 2]],
     mkWorld [[1; 0; 1]; [0; 1; 2]]
             (mkEntity 0 3 (Some [1]) (Some 1%nat) (Some [0; 1; 1]))).
Proof. reflexivity. Qed.

Example node0_snapshot :
  fst (get_all_costs (deliver [from_node1] node0_active)) =
    Ok [(0, 0); (1, 1); (1, 2)].
Proof. reflexivity. Qed.

Example node0_update_before_initialize_costs :
  update from_node1 node0 = (Raise AttributeError, node0).
Proof. reflexivity. Qed.

Example negative_identity_is_accepted :
  initialize_costs [(-1, 4)] (mkWorld [] (Entity_init 0 3)) =
    (Ok [mkPacket (-1) [0; 999; 4]],
     mkWorld [[0; 999; 4]]
             (mkEntity 0 3 (Some [-1]) (Some 0%nat) (Some [0; 0; -1]))).
Proof. reflexivity. Qed.
